(** * Datasette: the request-to-SQL pipeline

    A shallow embedding of [datasette/utils.py] and of the view classes of
    [datasette/app.py], with the properties of the query builder, the
    cursor codec, the SQL validator, the slug resolver, the time-limited
    [execute] and the table view.

    Conventions of the embedding.
    - A Python [str] is a [string]: the bytes of its UTF-8 encoding.  Byte
      order and code-point order agree on UTF-8, so [sorted] on strings is
      the byte-lexicographic order.  Character classes are those of the ASCII
      range: a byte above 127 is neither white space nor a digit and has no
      case ([Py.strip], [Py.isdigit], [Py.lower]).
    - A Python [dict] is a [gmap]; [len] is [size], [d[k] = v] is an insert,
      [d[k]] on a missing key raises [KeyError].  Where the order of
      insertion shows ([request.args], [urlencode]) it is a list of pairs.
    - A raised exception is the [Raise] branch of [result]; code that also
      touches the connections of the worker runs in the state-and-exception
      monad [M].
    - [sqlite3] is outside the repository: the engine is the parameter
      [conn_execute] of the section that models [app.py].  Clock readings
      are integers, in milliseconds.
    - Where the order in which a dictionary is iterated shows in a result
      (the tables of a catalog entry), that order is the parameter
      [dict_items]; [str] of a list of strings is the parameter
      [repr_list]. *)

From stdpp Require Import gmap strings list fin_maps sorting pretty.
From Stdlib Require Import ZArith Ascii.

Local Open Scope Z_scope.

(** ** Exceptions and results *)

Inductive exn : Type :=
  | InvalidSql (msg : string)
  | OperationalError (msg : string)
  | NotFound (msg : string)
  | KeyError (key : string)
  | IndexError
  | ValueError.

Inductive result (A : Type) : Type :=
  | Ok (a : A)
  | Raise (e : exn).
Arguments Ok {A} a.
Arguments Raise {A} e.

Global Instance result_ret : MRet result := λ A a, Ok a.
Global Instance result_bind : MBind result := λ A B f m,
  match m with
  | Ok a => f a
  | Raise e => Raise e
  end.
Global Instance result_fmap : FMap result := λ A B f m,
  match m with
  | Ok a => Ok (f a)
  | Raise e => Raise e
  end.

Definition is_ok {A} (r : result A) : bool :=
  match r with Ok _ => true | Raise _ => false end.

(** [for x in xs: body] where the body may raise. *)
Fixpoint result_mapM {A B} (f : A → result B) (l : list A) : result (list B) :=
  match l with
  | [] => Ok []
  | x :: l => y ← f x; ys ← result_mapM f l; mret (y :: ys)
  end.

(** ** Python [str] methods *)

Module Py.

Definition dquote : string := String "034"%char "".

Definition code (c : ascii) : N := N_of_ascii c.

Definition in_range (lo hi : N) (c : ascii) : bool :=
  ((lo <=? code c) && (code c <=? hi))%N.

(** [s.startswith(p)] *)
Fixpoint startswith (p s : string) : bool :=
  match p, s with
  | "", _ => true
  | String a p, String b s => if decide (a = b) then startswith p s else false
  | String _ _, "" => false
  end.

(** [sub in s] *)
Fixpoint contains (sub s : string) : bool :=
  startswith sub s ||
  match s with
  | "" => false
  | String _ r => contains sub r
  end.

Fixpoint drop (n : nat) (s : string) : string :=
  match n, s with
  | O, _ => s
  | S n, String _ r => drop n r
  | S _, "" => ""
  end.

(** [s.rsplit(sep, 1)] for a non-empty [sep]: the cut is at the right-most
    occurrence of [sep]; without an occurrence the list has one element. *)
Fixpoint rsplit_last (sep s : string) : option (string * string) :=
  match s with
  | "" => None
  | String c r =>
      match rsplit_last sep r with
      | Some (a, b) => Some (String c a, b)
      | None =>
          if startswith sep s then Some ("", drop (String.length sep) s)
          else None
      end
  end.

Definition rsplit1 (sep s : string) : list string :=
  match rsplit_last sep s with
  | Some (a, b) => [a; b]
  | None => [s]
  end.

(** [a, b = xs]: unpacking a list into two names. *)
Definition unpack2 (xs : list string) : result (string * string) :=
  match xs with
  | [a; b] => Ok (a, b)
  | _ => Raise ValueError
  end.

(** [s.split(sep)] for a one-character [sep]. *)
Fixpoint split (sep : ascii) (s : string) : list string :=
  match s with
  | "" => [""]
  | String c r =>
      if decide (c = sep) then "" :: split sep r
      else match split sep r with
           | w :: ws => String c w :: ws
           | [] => [String c ""]
           end
  end.

(** [sep.join(xs)] *)
Fixpoint join (sep : string) (xs : list string) : string :=
  match xs with
  | [] => ""
  | [x] => x
  | x :: xs => x +:+ sep +:+ join sep xs
  end.

(** [s.replace(a, b)] for one-character [a] and [b]. *)
Fixpoint replace_char (a b : ascii) (s : string) : string :=
  match s with
  | "" => ""
  | String c r => String (if decide (c = a) then b else c) (replace_char a b r)
  end.

Definition is_space (c : ascii) : bool :=
  in_range 9 13 c || in_range 28 32 c.

Fixpoint lstrip (s : string) : string :=
  match s with
  | "" => ""
  | String c r => if is_space c then lstrip r else s
  end.

Definition rstrip (s : string) : string := String.rev (lstrip (String.rev s)).

(** [s.strip()] *)
Definition strip (s : string) : string := rstrip (lstrip s).

Definition lower_char (c : ascii) : ascii :=
  if in_range 65 90 c then ascii_of_N (code c + 32) else c.

(** [s.lower()] *)
Fixpoint lower (s : string) : string :=
  match s with
  | "" => ""
  | String c r => String (lower_char c) (lower r)
  end.

Definition is_digit (c : ascii) : bool := in_range 48 57 c.

Fixpoint all_chars (p : ascii → bool) (s : string) : bool :=
  match s with
  | "" => true
  | String c r => p c && all_chars p r
  end.

(** [s.isdigit()]: at least one character, and all of them digits. *)
Definition isdigit (s : string) : bool :=
  match s with
  | "" => false
  | _ => all_chars is_digit s
  end.

Fixpoint int_go (acc : Z) (s : string) : Z :=
  match s with
  | "" => acc
  | String c r => int_go (10 * acc + (Z.of_N (code c) - 48)) r
  end.

(** [int(s)] on a string of digits. *)
Definition int (s : string) : Z := int_go 0 s.

(** [template.format(a, b, ...)] for templates whose only fields are the
    automatically numbered [{}]; every template of the source is of that
    kind.  A field with no argument left prints nothing. *)
Fixpoint format (template : string) (args : list string) : string :=
  match template with
  | String "{" (String "}" rest) =>
      match args with
      | a :: args => a +:+ format rest args
      | [] => format rest []
      end
  | String c rest => String c (format rest args)
  | "" => ""
  end.

End Py.

(** ** [urllib.parse]: [quote_plus] and [unquote_plus] *)

Module Urllib.

Definition hex_char (n : N) : ascii :=
  (if n <? 10 then ascii_of_N (48 + n) else ascii_of_N (55 + n))%N.

(** The keys of [_hextobyte]: hexadecimal digits of either case. *)
Definition hex_val (c : ascii) : option N :=
  if Py.in_range 48 57 c then Some (Py.code c - 48)%N
  else if Py.in_range 65 70 c then Some (Py.code c - 55)%N
  else if Py.in_range 97 102 c then Some (Py.code c - 87)%N
  else None.

(** [_ALWAYS_SAFE]: letters, digits and [_.-~] (before Python 3.7 the
    tilde was quoted; nothing below depends on it). *)
Definition always_safe (c : ascii) : bool :=
  Py.in_range 48 57 c || Py.in_range 65 90 c || Py.in_range 97 122 c ||
  bool_decide (c = "_"%char) || bool_decide (c = "."%char) ||
  bool_decide (c = "-"%char) || bool_decide (c = "~"%char).

Definition quote_byte (c : ascii) : string :=
  if always_safe c then String c ""
  else if decide (c = " "%char) then "+"
  else String "%" (String (hex_char (Py.code c / 16))
                     (String (hex_char (Py.code c `mod` 16)) "")).

(** [quote_plus(s)]: safe bytes stay, a space becomes [+], every other byte
    of the UTF-8 encoding becomes [%XX]. *)
Fixpoint quote_plus (s : string) : string :=
  match s with
  | "" => ""
  | String c r => quote_byte c +:+ quote_plus r
  end.

(** [unquote_to_bytes]: a [%] followed by two hexadecimal digits is one
    byte, any other [%] stays. *)
Fixpoint unquote_to_bytes (s : string) : string :=
  match s with
  | "" => ""
  | String c r =>
      if decide (c = "%"%char) then
        match r with
        | String h (String l rest) =>
            match hex_val h, hex_val l with
            | Some a, Some b =>
                String (ascii_of_N (16 * a + b)) (unquote_to_bytes rest)
            | _, _ => String c (unquote_to_bytes r)
            end
        | _ => String c (unquote_to_bytes r)
        end
      else String c (unquote_to_bytes r)
  end.

(** *** [bytes.decode('utf-8', 'replace')], on the UTF-8 encoding of its
    result: every maximal ill-formed part becomes U+FFFD. *)

Definition replacement : string :=
  String (ascii_of_N 239) (String (ascii_of_N 191) (String (ascii_of_N 189) "")).

Inductive lead : Type :=
  | LeadAscii
  | LeadMulti (more : nat) (lo hi : N)
  | LeadInvalid.

Definition classify (c : ascii) : lead :=
  let n := Py.code c in
  (if n <? 128 then LeadAscii
   else if (194 <=? n) && (n <=? 223) then LeadMulti 1 128 191
   else if n =? 224 then LeadMulti 2 160 191
   else if n =? 237 then LeadMulti 2 128 159
   else if (225 <=? n) && (n <=? 239) then LeadMulti 2 128 191
   else if n =? 240 then LeadMulti 3 144 191
   else if (241 <=? n) && (n <=? 243) then LeadMulti 3 128 191
   else if n =? 244 then LeadMulti 3 128 143
   else LeadInvalid)%N.

(** The decoder state: the bytes of the sequence read so far, how many
    continuation bytes are missing, and the range allowed for the next. *)
Definition pending : Type := string * nat * N * N.

Fixpoint utf8_go (st : option pending) (s : string) : string :=
  match s with
  | "" => match st with None => "" | Some _ => replacement end
  | String c r =>
      let start :=
        match classify c with
        | LeadAscii => String c (utf8_go None r)
        | LeadMulti more lo hi => utf8_go (Some (String c "", more, lo, hi)) r
        | LeadInvalid => replacement +:+ utf8_go None r
        end in
      match st with
      | None => start
      | Some (seen, more, lo, hi) =>
          if Py.in_range lo hi c then
            match more with
            | S (S more') =>
                utf8_go (Some (seen +:+ String c "", S more', 128, 191)%N) r
            | _ => seen +:+ String c (utf8_go None r)
            end
          else replacement +:+ start
      end
  end.

Definition utf8_replace (bytes : string) : string := utf8_go None bytes.

(** The pieces of [_asciire.split]: maximal runs of ASCII and of other
    characters, each with its kind. *)
Fixpoint ascii_runs (s : string) : list (bool * string) :=
  match s with
  | "" => []
  | String c r =>
      let a := (Py.code c <? 128)%N in
      match ascii_runs r with
      | (b, w) :: t =>
          if decide (a = b) then (a, String c w) :: t
          else (a, String c "") :: (b, w) :: t
      | [] => [(a, String c "")]
      end
  end.

Definition unquote_run (run : bool * string) : string :=
  if run.1 then utf8_replace (unquote_to_bytes run.2) else run.2.

(** [unquote(s)] with the defaults [encoding='utf-8', errors='replace']. *)
Definition unquote (s : string) : string :=
  if Py.contains "%" s then Py.join "" (unquote_run <$> ascii_runs s)
  else s.

(** [unquote_plus(s)] *)
Definition unquote_plus (s : string) : string :=
  unquote (Py.replace_char "+" " " s).

End Urllib.

(** ** Values *)

(** A value bound to a named SQL parameter: a [str], or the [int] that the
    numeric lookups produce. *)
Inductive pyval : Type :=
  | PyStr (s : string)
  | PyInt (z : Z).

Global Instance pyval_eq_dec : EqDecision pyval.
Proof. solve_decision. Defined.

(** A value of a result row, by storage class: [None], [int], [str],
    [bytes].  (REAL values are floating point and are left out.) *)
Inductive sqlval : Type :=
  | SqlNull
  | SqlInt (z : Z)
  | SqlText (s : string)
  | SqlBlob (b : string).

Global Instance sqlval_eq_dec : EqDecision sqlval.
Proof. solve_decision. Defined.

Definition hex_lower (n : N) : ascii :=
  (if n <? 10 then ascii_of_N (48 + n) else ascii_of_N (87 + n))%N.

(** [repr] of a [bytes] object. *)
Definition bytes_repr_char (quote c : ascii) : string :=
  if decide (c = quote) then String "\" (String c "")
  else if decide (c = "\"%char) then "\\"
  else if decide (c = "009"%char) then "\t"
  else if decide (c = "010"%char) then "\n"
  else if decide (c = "013"%char) then "\r"
  else if Py.in_range 32 126 c then String c ""
  else String "\" (String "x" (String (hex_lower (Py.code c / 16))
                     (String (hex_lower (Py.code c `mod` 16)) ""))).

Fixpoint bytes_repr_body (quote : ascii) (b : string) : string :=
  match b with
  | "" => ""
  | String c r => bytes_repr_char quote c +:+ bytes_repr_body quote r
  end.

Definition bytes_repr (b : string) : string :=
  let quote :=
    if Py.contains "'" b && negb (Py.contains Py.dquote b)
    then "034"%char else "'"%char in
  String "b" (String quote (bytes_repr_body quote b +:+ String quote "")).

(** [str(v)] *)
Definition py_str (v : sqlval) : string :=
  match v with
  | SqlNull => "None"
  | SqlInt z => pretty z
  | SqlText s => s
  | SqlBlob b => bytes_repr b
  end.

(** Truth value of a row value, as in [if row[-1]]. *)
Definition truthy (v : sqlval) : bool :=
  match v with
  | SqlNull => false
  | SqlInt z => negb (z =? 0)
  | SqlText s => negb (bool_decide (s = ""))
  | SqlBlob b => negb (bool_decide (b = ""))
  end.

(** A [sqlite3.Row]: the values of one result row with their column names.
    [row[name]] takes the first column whose name matches without regard to
    ASCII case and raises [IndexError] when there is none. *)
Definition Row : Type := list (string * sqlval).

Fixpoint row_get (row : Row) (name : string) : result sqlval :=
  match row with
  | [] => Raise IndexError
  | (k, v) :: row =>
      if decide (Py.lower k = Py.lower name) then Ok v else row_get row name
  end.

(** [row[i]] for [i >= 0], and [row[-1]]. *)
Definition row_at (row : Row) (i : nat) : result sqlval :=
  match row !! i with
  | Some (_, v) => Ok v
  | None => Raise IndexError
  end.

Definition row_last (row : Row) : result sqlval :=
  match last row with
  | Some (_, v) => Ok v
  | None => Raise IndexError
  end.

(** ** [sorted] *)

(** A stable insertion sort: the result of [sorted(xs)] and of
    [xs.sort(key=...)] for the order [leb]. *)
Section sorted.
Context {A : Type} (leb : A → A → bool).

Fixpoint sorted_insert (x : A) (l : list A) : list A :=
  match l with
  | [] => [x]
  | y :: l' => if leb x y then x :: l else y :: sorted_insert x l'
  end.

Fixpoint py_sorted (l : list A) : list A :=
  match l with
  | [] => []
  | x :: l => sorted_insert x (py_sorted l)
  end.
End sorted.

Definition str_leb (a b : string) : bool := bool_decide (a ≤ b)%string.
Definition str_ltb (a b : string) : bool := str_leb a b && negb (bool_decide (a = b)).

(** Order of the [(key, value)] tuples of [args.items()]. *)
Definition item_leb (x y : string * string) : bool :=
  str_ltb x.1 y.1 || (bool_decide (x.1 = y.1) && str_leb x.2 y.2).

Definition str_lt (a b : string) : Prop := str_ltb a b = true.

(** [sorted(args.items())] *)
Definition sorted_items (args : gmap string string) : list (string * string) :=
  py_sorted item_leb (map_to_list args).

(** ** utils.py *)

Definition compound_pks_from_path (path : string) : list string :=
  Urllib.unquote_plus <$> Py.split "," path.

Definition path_from_row_pks (row : Row) (pks : list string) (use_rowid : bool)
    : result string :=
  if use_rowid then
    v ← row_get row "rowid";
    mret (Urllib.quote_plus (py_str v))
  else
    bits ← result_mapM
      (λ pk, v ← row_get row pk; mret (Urllib.quote_plus (py_str v))) pks;
    mret (Py.join "," bits).

(** The [template] dictionary of [build_where_clauses]. *)
Definition templates : gmap string string :=
  list_to_map
    [ ("exact", Py.dquote +:+ "{}" +:+ Py.dquote +:+ " = :{}");
      ("contains", Py.dquote +:+ "{}" +:+ Py.dquote +:+ " like :{}");
      ("endswith", Py.dquote +:+ "{}" +:+ Py.dquote +:+ " like :{}");
      ("startswith", Py.dquote +:+ "{}" +:+ Py.dquote +:+ " like :{}");
      ("gt", Py.dquote +:+ "{}" +:+ Py.dquote +:+ " > :{}");
      ("gte", Py.dquote +:+ "{}" +:+ Py.dquote +:+ " >= :{}");
      ("lt", Py.dquote +:+ "{}" +:+ Py.dquote +:+ " < :{}");
      ("lte", Py.dquote +:+ "{}" +:+ Py.dquote +:+ " <= :{}");
      ("glob", Py.dquote +:+ "{}" +:+ Py.dquote +:+ " glob :{}");
      ("like", Py.dquote +:+ "{}" +:+ Py.dquote +:+ " like :{}") ].

Definition numeric_operators : list string := ["gt"; "gte"; "lt"; "lte"].

(** The [value_convert] dictionary. *)
Definition value_converters : gmap string (string → string) :=
  list_to_map
    [ ("contains", λ s, Py.format "%{}%" [s]);
      ("endswith", λ s, Py.format "%{}" [s]);
      ("startswith", λ s, Py.format "{}%" [s]) ].

(** [d[k]] *)
Definition dict_get {V} (d : gmap string V) (k : string) : result V :=
  match d !! k with
  | Some v => Ok v
  | None => Raise (KeyError k)
  end.

(** One round of the loop of [build_where_clauses], for the [i]-th item. *)
Definition where_clause_step (i : nat) (key value : string)
    (acc : list string * gmap string pyval)
    : result (list string * gmap string pyval) :=
  let '(sql_bits, params) := acc in
  '(column, lookup) ←
    (if Py.contains "__" key then Py.unpack2 (Py.rsplit1 "__" key)
     else Ok (key, "exact"));
  template ← dict_get templates lookup;
  let value_convert := default (λ s, s) (value_converters !! lookup) in
  let converted := value_convert value in
  let converted :=
    if bool_decide (lookup ∈ numeric_operators) && Py.isdigit converted
    then PyInt (Py.int converted) else PyStr converted in
  let param_id := Py.format "p{}" [pretty i] in
  mret (sql_bits ++ [Py.format template [column; param_id]],
        <[param_id := converted]> params).

Fixpoint where_clause_loop (i : nat) (items : list (string * string))
    (acc : list string * gmap string pyval)
    : result (list string * gmap string pyval) :=
  match items with
  | [] => Ok acc
  | (key, value) :: items =>
      acc ← where_clause_step i key value acc;
      where_clause_loop (S i) items acc
  end.

Definition build_where_clauses (args : gmap string string)
    : result (list string * gmap string pyval) :=
  where_clause_loop 0 (sorted_items args) ([], ∅).

Definition validate_sql_select (sql : string) : result unit :=
  let sql := Py.lower (Py.strip sql) in
  if negb (Py.startswith "select " sql) then
    Raise (InvalidSql "Statement must begin with SELECT")
  else if Py.contains "pragma" sql then
    Raise (InvalidSql "Statement may not contain PRAGMA")
  else Ok ().

(** ** Connections, the clock and the monad of [app.py] *)

(** The progress handler of [sqlite_timelimit]: it returns 1 (cancel) once
    the clock has reached [ph_deadline], and is called every [ph_every]
    instructions.  Times are in milliseconds. *)
Record ProgressHandler : Type := {
  ph_deadline : Z;
  ph_every : Z;
}.

Record Connection : Type := {
  conn_file : string;
  conn_progress_handler : option ProgressHandler;
}.

(** [Cursor.description] (column names) and the rows of the result. *)
Record Cursor : Type := {
  description : list string;
  fetchall : list (list sqlval);
}.

(** [list(rows)] with [row_factory = sqlite3.Row]. *)
Definition cursor_rows (c : Cursor) : list Row :=
  (λ vs, zip (description c) vs) <$> fetchall c.

(** What a worker thread sees: the clock and its thread-local
    [connections], by database name. *)
Record World : Type := {
  clock : Z;
  connections : gmap string Connection;
}.

Definition M (A : Type) : Type := World → World * result A.

Global Instance M_ret : MRet M := λ A a w, (w, Ok a).
Global Instance M_bind : MBind M := λ A B f m w,
  match m w with
  | (w', Ok a) => f a w'
  | (w', Raise e) => (w', Raise e)
  end.

(** A computation that leaves the connections alone. *)
Definition lift {A} (r : result A) : M A := λ w, (w, r).

(** [try: body except (sqlite3.OperationalError, InvalidSql) as e: handler] *)
Definition try_sql_errors {A} (body : M A) (handler : string → M A) : M A :=
  λ w,
    match body w with
    | (w', Raise (OperationalError msg)) => handler msg w'
    | (w', Raise (InvalidSql msg)) => handler msg w'
    | other => other
    end.

(** [conn.set_progress_handler(handler, n)]; the connection object is the
    one the store holds for [db_name]. *)
Definition with_handler (handler : option ProgressHandler) (c : Connection)
    : Connection :=
  {| conn_file := conn_file c; conn_progress_handler := handler |}.

Definition set_progress_handler (db_name : string)
    (handler : option ProgressHandler) : M unit :=
  λ w,
    ({| clock := clock w;
        connections := alter (with_handler handler) db_name (connections w) |},
     Ok ()).

(** [time.time()], in milliseconds. *)
Definition time_time : M Z := λ w, (w, Ok (clock w)).

(** A [contextlib.contextmanager] generator of the shape
    [before; yield; after], the [yield] outside any [try]: the [with]
    statement runs [before], then its block; when the block returns, the
    generator is resumed and runs [after]; when the block raises, the
    exception is thrown into the generator at the [yield], no handler of the
    generator catches it, [after] is not run, and the exception leaves the
    [with] statement. *)
Definition with_generator {A} (before after : M unit) (block : M A) : M A :=
  λ w,
    match before w with
    | (w1, Raise e) => (w1, Raise e)
    | (w1, Ok _) =>
        match block w1 with
        | (w2, Raise e) => (w2, Raise e)
        | (w2, Ok a) =>
            match after w2 with
            | (w3, Raise e) => (w3, Raise e)
            | (w3, Ok _) => (w3, Ok a)
            end
        end
    end.

(** The two halves of the generator [sqlite_timelimit(conn, ms)]. *)
Definition sqlite_timelimit_before (conn : string) (ms : Z) : M unit :=
  now ← time_time;
  let deadline := now + ms in
  let n := if ms <? 50 then 1 else 1000 in
  set_progress_handler conn
    (Some {| ph_deadline := deadline; ph_every := n |}).

Definition sqlite_timelimit_after (conn : string) : M unit :=
  set_progress_handler conn None.

Definition sqlite_timelimit {A} (conn : string) (ms : Z) (block : M A) : M A :=
  with_generator (sqlite_timelimit_before conn ms)
                 (sqlite_timelimit_after conn) block.

(** ** Requests, the catalog and responses *)

(** [request.args] maps a key to the list of its values, in the order of
    the query string. *)
Record Request : Type := {
  path : string;
  query_string : string;
  args : list (string * list string);
}.

(** [value[0]] *)
Definition first_value (value : list string) : result string :=
  match value with
  | v :: _ => Ok v
  | [] => Raise IndexError
  end.

(** [request.raw_args]: every key with its first value. *)
Definition raw_args (request : Request) : result (list (string * string)) :=
  result_mapM (λ kv, v ← first_value kv.2; mret (kv.1, v)) (args request).

(** [d[k] = v] on a dictionary kept in insertion order. *)
Fixpoint odict_set (d : list (string * string)) (k v : string)
    : list (string * string) :=
  match d with
  | [] => [(k, v)]
  | (k', v') :: d =>
      if decide (k' = k) then (k, v) :: d else (k', v') :: odict_set d k v
  end.

(** [urllib.parse.urlencode(d)] for string keys and values. *)
Definition urlencode (d : list (string * string)) : string :=
  Py.join "&"
    ((λ kv, Urllib.quote_plus kv.1 +:+ "=" +:+ Urllib.quote_plus kv.2) <$> d).

Definition path_with_added_args (request : Request)
    (added : list (string * string)) : result string :=
  current ← raw_args request;
  let current := foldl (λ d kv, odict_set d kv.1 kv.2) current added in
  mret (path request +:+ "?" +:+ urlencode current).

Definition path_with_ext (request : Request) (ext : string) : string :=
  let p := path request +:+ ext in
  if decide (query_string request = "") then p
  else p +:+ "?" +:+ query_string request.

(** An entry of [Datasette.metadata()]. *)
Record DatabaseInfo : Type := {
  info_hash : string;
  info_file : string;
  info_tables : gmap string Z;
}.

Record Datasette : Type := {
  metadata : gmap string DatabaseInfo;
  page_size : Z;
  cache_headers : bool;
}.

Definition SQL_TIME_LIMIT_MS : Z := 1000.

(** An HTTP response: status, headers, and what the body is made from. *)
Inductive Payload (D : Type) : Type :=
  | PayloadError (error database database_hash : string)
  | PayloadData (data : D).
Arguments PayloadError {D} error database database_hash.
Arguments PayloadData {D} data.

Inductive Body (D E : Type) : Type :=
  | BodyEmpty
  | BodyJson (as_json : string) (data : Payload D)
  | BodyHtml (template : string) (data : Payload D) (extra : option E)
             (url_json url_jsono : string).
Arguments BodyEmpty {D E}.
Arguments BodyJson {D E} as_json data.
Arguments BodyHtml {D E} template data extra url_json url_jsono.

Record Response (D E : Type) : Type := {
  status : Z;
  headers : gmap string string;
  body : Body D E;
}.
Arguments status {D E} r.
Arguments headers {D E} r.
Arguments body {D E} r.

(** The [data] and the extra template data of [TableView.data]. *)
Record TableData : Type := {
  td_database : string;
  td_table : string;
  td_is_view : bool;
  td_view_definition : option sqlval;
  td_table_definition : option sqlval;
  td_rows : list Row;
  td_table_rows : option Z;
  td_columns : list string;
  td_primary_keys : list string;
  td_query_sql : string;
  td_query_params : gmap string pyval;
  td_after : option string;
}.

Record TableExtra : Type := {
  te_database_hash : string;
  te_use_rowid : bool;
  te_display_columns : list string;
  te_after_link : option string;
}.

(** The [data] and the extra template data of [DatabaseView.custom_sql]. *)
Record QueryData : Type := {
  qd_database : string;
  qd_rows : list Row;
  qd_columns : list string;
  qd_query_sql : string;
  qd_query_params : gmap string pyval;
}.

Record QueryExtra : Type := {
  qe_database_hash : string;
  qe_custom_sql : bool;
}.

(** [xs[:n]] *)
Definition slice_to {A} (n : Z) (xs : list A) : list A :=
  if 0 <=? n then take (Z.to_nat n) xs
  else take (Z.to_nat (Z.of_nat (length xs) + n)) xs.

(** [xs[-2]] *)
Definition second_to_last {A} (xs : list A) : result A :=
  match xs !! (length xs - 2)%nat with
  | Some x => if decide (2 ≤ length xs)%nat then Ok x else Raise IndexError
  | None => Raise IndexError
  end.

(** [list(cursor)[0][0]] *)
Definition first_cell (c : Cursor) : result sqlval :=
  match cursor_rows c with
  | row :: _ => row_at row 0
  | [] => Raise IndexError
  end.

(** The partition of the request arguments in [TableView.data]. *)
Fixpoint partition_args (items : list (string * list string))
    (acc : gmap string string * gmap string string)
    : result (gmap string string * gmap string string) :=
  match items with
  | [] => Ok acc
  | (key, value) :: items =>
      let '(special_args, other_args) := acc in
      v ← first_value value;
      partition_args items
        (if Py.startswith "_" key && negb (Py.contains "__" key)
         then (<[key := v]> special_args, other_args)
         else (special_args, <[key := v]> other_args))
  end.

(** The loop over [zip(pks, pk_values)] of the [_after] branch. *)
Fixpoint after_pk_loop (pairs : list (string * string)) (param_counter : nat)
    (acc : list string * gmap string pyval)
    : list string * gmap string pyval :=
  match pairs with
  | [] => acc
  | (pk, value) :: pairs =>
      let '(where_clauses, params) := acc in
      after_pk_loop pairs (S param_counter)
        (where_clauses ++
           [Py.format (Py.dquote +:+ "{}" +:+ Py.dquote +:+ " > :p{}")
                      [pk; pretty param_counter]],
         <[Py.format "p{}" [pretty param_counter] := PyStr value]> params)
  end.

(** The whole [_after] step: the clauses and parameters once the cursor has
    been taken into account. *)
Definition apply_after (after : option string) (use_rowid : bool)
    (pks : list string) (acc : list string * gmap string pyval)
    : list string * gmap string pyval :=
  let '(where_clauses, params) := acc in
  match after with
  | None => acc
  | Some after =>
      if decide (after = "") then acc
      else if use_rowid then
        (where_clauses ++ [Py.format "rowid > :p{}" [pretty (size params)]],
         <[Py.format "p{}" [pretty (size params)] := PyStr after]> params)
      else
        let pk_values := compound_pks_from_path after in
        if decide (length pk_values = length pks) then
          after_pk_loop (zip pks pk_values) (size params) acc
        else acc
  end.

(** ** app.py *)

Section app.

(** [sqlite3.Connection.execute]: the engine, which sees the connection
    with whatever progress handler is installed on it. *)
Variable conn_execute :
  Connection → string → gmap string pyval → result Cursor.

(** [self.ds] *)
Variable ds : Datasette.

(** *** BaseView *)

Definition redirect {D E} (request : Request) (path : string)
    : Response D E :=
  let path :=
    if decide (query_string request = "") then path
    else Py.format "{}?{}" [path; query_string request] in
  {| status := 302;
     headers := <["Link" := Py.format "<{}>; rel=preload" [path]]>
                  {["Location" := path]};
     body := BodyEmpty |}.

Definition resolve_db_name (db_name : string) (kwargs : gmap string string)
    : result (string * string * option string) :=
  let databases := metadata ds in
  '(name, hash) ←
    (if Py.contains "-" db_name then
       '(name, hash) ← Py.unpack2 (Py.rsplit1 "-" db_name);
       if decide (name ∉ dom databases)
       then mret (db_name, None)
       else mret (name, Some hash)
     else mret (db_name, None));
  match databases !! name with
  | None => Raise (NotFound (Py.format "Database not found: {}" [name]))
  | Some info =>
      let expected := String.substring 0 7 (info_hash info) in
      if decide (Some expected ≠ hash) then
        let should_redirect := Py.format "/{}-{}" [name; expected] in
        let should_redirect :=
          match kwargs !! "table" with
          | Some table => should_redirect +:+ "/" +:+ table
          | None => should_redirect
          end in
        let should_redirect :=
          match kwargs !! "as_json" with
          | Some as_json => should_redirect +:+ as_json
          | None => should_redirect
          end in
        let should_redirect :=
          match kwargs !! "as_db" with
          | Some as_db => should_redirect +:+ as_db
          | None => should_redirect
          end in
        mret (name, expected, Some should_redirect)
      else mret (name, expected, None)
  end.

(** The connection of the worker for [db_name], opened on first use. *)
Definition get_connection (db_name : string) : M Connection :=
  λ w,
    match connections w !! db_name with
    | Some conn => (w, Ok conn)
    | None =>
        match dict_get (metadata ds) db_name with
        | Raise e => (w, Raise e)
        | Ok info =>
            let conn :=
              {| conn_file :=
                   Py.format "file:{}?immutable=1" [info_file info];
                 conn_progress_handler := None |} in
            ({| clock := clock w;
                connections := <[db_name := conn]> (connections w) |},
             Ok conn)
        end
    end.

(** [conn.execute(sql, params)] on the connection as the store has it. *)
Definition run_statement (db_name sql : string)
    (params : gmap string pyval) : M Cursor :=
  λ w,
    match connections w !! db_name with
    | Some conn => (w, conn_execute conn sql params)
    | None => (w, Raise (KeyError db_name))
    end.

(** [execute]: the body of [sql_operation_in_thread], run by one worker.
    The [except Exception: print(...); raise] around the statement
    re-raises what it caught; the printed line is not part of the model. *)
Definition execute (db_name sql : string)
    (params : option (gmap string pyval)) : M Cursor :=
  _ ← get_connection db_name;
  rows ← sqlite_timelimit db_name SQL_TIME_LIMIT_MS
           (run_statement db_name sql (default ∅ params));
  mret rows.

Definition pk_flag (row : Row) : Z :=
  match row_last row with
  | Ok (SqlInt z) => z
  | _ => 0
  end.

(** The [pk] column of [PRAGMA table_info] is an integer; the sort key of
    a row is that integer. *)
Definition pks_for_table (name table : string) : M (list string) :=
  cursor ← execute name
    (Py.format ("PRAGMA table_info(" +:+ Py.dquote +:+ "{}" +:+ Py.dquote +:+ ")")
               [table]) None;
  rows ← lift (result_mapM (λ row, v ← row_last row; mret (row, truthy v))
                 (cursor_rows cursor));
  let rows := (filter (λ rv, rv.2 = true) rows).*1 in
  let rows := py_sorted (λ r1 r2, pk_flag r1 <=? pk_flag r2) rows in
  lift (result_mapM (λ r, v ← row_at r 1; mret (py_str v)) rows).

(** [view_get], for a view class with the given [template] and [data].
    [as_json] is [kwargs.pop('as_json')], [None] when the key is missing.
    The elapsed time [query_ms] is not part of the model. *)
Definition view_get {D E} (template : string) (data : M (D * E))
    (request : Request) (name hash : string) (as_json : option string)
    : M (Response D E) :=
  let as_json := default "" as_json in
  '(data, extra, template, status_code) ←
    try_sql_errors
      ('(data, extra) ← data;
       mret (PayloadData data, Some extra, template, 200))
      (λ msg,
         mret (PayloadError msg name hash, None, "error.html", 400));
  let r :=
    if decide (as_json = "") then
      {| status := status_code;
         headers := ∅;
         body := BodyHtml template data extra
                   (path_with_ext request ".json")
                   (path_with_ext request ".jsono") |}
    else
      {| status := status_code;
         headers := {["Access-Control-Allow-Origin" := "*"]};
         body := BodyJson as_json data |} in
  mret
    (if cache_headers ds then
       {| status := status r;
          headers := <["Cache-Control" :=
                         Py.format "max-age={}" [pretty (365 * 24 * 60 * 60)]]>
                       (headers r);
          body := body r |}
     else r).

(** [get]: resolve the slug, then redirect or hand over to [view_get]. *)
Definition get {D E}
    (view_get : Request → string → string → gmap string string →
                M (Response D E))
    (request : Request) (db_name : string) (kwargs : gmap string string)
    : M (Response D E) :=
  '(name, hash, should_redirect) ← lift (resolve_db_name db_name kwargs);
  match should_redirect with
  | Some target =>
      if decide (target = "") then view_get request name hash kwargs
      else mret (redirect request target)
  | None => view_get request name hash kwargs
  end.

(** *** DatabaseView *)

(** [params.pop('sql')] on [request.raw_args]. *)
Definition pop_sql (params : list (string * string))
    : result (string * list (string * string)) :=
  match list_find (λ kv, kv.1 = "sql") params with
  | Some (_, (_, sql)) => Ok (sql, filter (λ kv, kv.1 ≠ "sql") params)
  | None => Raise (KeyError "sql")
  end.

Definition custom_sql (request : Request) (name hash : string)
    : M (QueryData * QueryExtra) :=
  params ← lift (raw_args request);
  '(sql, params) ← lift (pop_sql params);
  _ ← lift (validate_sql_select sql);
  let params : gmap string pyval :=
    list_to_map (reverse (prod_map id PyStr <$> params)) in
  rows ← execute name sql (Some params);
  let columns := description rows in
  mret ({| qd_database := name;
           qd_rows := cursor_rows rows;
           qd_columns := columns;
           qd_query_sql := sql;
           qd_query_params := params |},
        {| qe_database_hash := hash;
           qe_custom_sql := true |}).

(** *** TableView *)

Definition TableView_data (request : Request) (name hash table : string)
    : M (TableData * TableExtra) :=
  let table := Urllib.unquote_plus table in
  pks ← pks_for_table name table;
  count ← execute name
    "SELECT count(*) from sqlite_master WHERE type = 'view' and name=:n"
    (Some {["n" := PyStr table]});
  is_view ← lift (truthy <$> first_cell count);
  '(view_definition, table_definition) ←
    (if is_view then
       c ← execute name
         ("select sql from sqlite_master where name = :n and type=" +:+
          Py.dquote +:+ "view" +:+ Py.dquote)
         (Some {["n" := PyStr table]});
       d ← lift (first_cell c);
       mret (Some d, None)
     else
       c ← execute name
         ("select sql from sqlite_master where name = :n and type=" +:+
          Py.dquote +:+ "table" +:+ Py.dquote)
         (Some {["n" := PyStr table]});
       d ← lift (first_cell c);
       mret (None, Some d));
  let use_rowid := bool_decide (pks = []) && negb is_view in
  let '(select, order_by) :=
    if use_rowid then ("rowid, *", "rowid")
    else ("*", Py.join ", " pks) in
  let order_by := if is_view then "" else order_by in
  '(special_args, other_args) ← lift (partition_args (args request) (∅, ∅));
  '(where_clauses, params) ←
    lift (if decide (other_args = ∅) then Ok ([], ∅)
          else build_where_clauses other_args);
  let after := special_args !! "_after" in
  let '(where_clauses, params) :=
    apply_after after use_rowid pks (where_clauses, params) in
  let where_clause :=
    if decide (where_clauses = []) then ""
    else Py.format "where {} " [Py.join " and " where_clauses] in
  let order_by :=
    if decide (order_by = "") then ""
    else Py.format "order by {} " [order_by] in
  let sql :=
    Py.format ("select {} from " +:+ Py.dquote +:+ "{}" +:+ Py.dquote +:+
               " {}{}limit {}")
      [select; table; where_clause; order_by; pretty (page_size ds + 1)] in
  cursor ← execute name sql (Some params);
  let columns := description cursor in
  let display_columns := if use_rowid then drop 1 columns else columns in
  let rows := cursor_rows cursor in
  info ← lift (dict_get (metadata ds) name);
  let table_rows := info_tables info !! table in
  '(after, after_link) ←
    lift (if decide (page_size ds < Z.of_nat (length rows)) then
            boundary ← second_to_last rows;
            after ← path_from_row_pks boundary pks use_rowid;
            after_link ← path_with_added_args request [("_after", after)];
            mret (Some after, Some after_link)
          else mret (None, None));
  mret ({| td_database := name;
           td_table := table;
           td_is_view := is_view;
           td_view_definition := view_definition;
           td_table_definition := table_definition;
           td_rows := slice_to (page_size ds) rows;
           td_table_rows := table_rows;
           td_columns := columns;
           td_primary_keys := pks;
           td_query_sql := sql;
           td_query_params := params;
           td_after := after |},
        {| te_database_hash := hash;
           te_use_rowid := use_rowid;
           te_display_columns := display_columns;
           te_after_link := after_link |}).

(** The table route: [kwargs] holds [table] and [as_json]. *)
Definition TableView_view_get (request : Request) (name hash : string)
    (kwargs : gmap string string) : M (Response TableData TableExtra) :=
  table ← lift (dict_get kwargs "table");
  view_get "table.html" (TableView_data request name hash table)
    request name hash (kwargs !! "as_json").

Definition TableView_get (request : Request) (db_name : string)
    (kwargs : gmap string string) : M (Response TableData TableExtra) :=
  get TableView_view_get request db_name kwargs.

End app.

(** ** What the generated comparisons mean to the engine *)

(** SQLite's [>] between a column value and a bound parameter, by storage
    class (NULL compares to nothing, INTEGER sorts before TEXT, TEXT before
    BLOB, TEXT by [memcmp]); conversions by column affinity are not part of
    the model. *)
Definition sqlite_gt (v : sqlval) (p : pyval) : bool :=
  match v, p with
  | SqlNull, _ => false
  | SqlInt a, PyInt b => b <? a
  | SqlInt _, PyStr _ => false
  | SqlText _, PyInt _ => true
  | SqlText a, PyStr b => str_ltb b a
  | SqlBlob _, _ => true
  end.

Definition sqlite_eq (v : sqlval) (p : pyval) : bool :=
  match v, p with
  | SqlInt a, PyInt b => a =? b
  | SqlText a, PyStr b => bool_decide (a = b)
  | _, _ => false
  end.

(** A clause [column > :param], and its text. *)
Record Comparison : Type := {
  cmp_column : string;
  cmp_param : string;
}.

Definition render_gt (c : Comparison) : string :=
  Py.dquote +:+ cmp_column c +:+ Py.dquote +:+ " > :" +:+ cmp_param c.

Definition holds_gt (row : Row) (params : gmap string pyval) (c : Comparison)
    : bool :=
  match row_get row (cmp_column c), params !! cmp_param c with
  | Ok v, Some p => sqlite_gt v p
  | _, _ => false
  end.

(** The comparisons that the [_after] branch adds for [pks], the first one
    bound to [p<n>]. *)
Definition after_comparisons (pks : list string) (n : nat) : list Comparison :=
  imap (λ i pk, {| cmp_column := pk;
                   cmp_param := "p" +:+ pretty (n + i)%nat |}) pks.

(** [row_tuple > cursor_tuple] as tuples: the rows that come after the
    cursor in the order of [order by pk1, pk2, ...]. *)
Fixpoint tuple_gt (vs : list sqlval) (cursor : list pyval) : bool :=
  match vs, cursor with
  | v :: vs, c :: cursor => sqlite_gt v c || (sqlite_eq v c && tuple_gt vs cursor)
  | _, _ => false
  end.

(** ** The specification's reading of a filter key *)

Definition known_lookups : list string :=
  ["exact"; "contains"; "startswith"; "endswith";
   "gt"; "gte"; "lt"; "lte"; "glob"; "like"].

(** The column and the lookup of a key: the parts before and after the last
    [__], and [exact] when there is none. *)
Definition key_parts (key : string) : string * string :=
  match Py.rsplit_last "__" key with
  | Some (column, lookup) => (column, lookup)
  | None => (key, "exact")
  end.





(** ** The specification's reading of the SQL validator *)





Definition known_key (key : string) : Prop :=
  (key_parts key).2 ∈ known_lookups.

Global Instance known_key_dec key : Decision (known_key key).
Proof. unfold known_key. apply _. Defined.

(** ** The specification's reading of the cursor codec *)

(** The values a cursor stands for: the row's values at the [pks] columns,
    or its rowid alone. *)
Definition pk_values (row : Row) (pks : list string) (use_rowid : bool)
    : result (list sqlval) :=
  if use_rowid then v ← row_get row "rowid"; mret [v]
  else result_mapM (row_get row) pks.

(** Text that [decode('utf-8', 'replace')] leaves alone: well-formed UTF-8. *)
Definition well_formed (s : string) : Prop := Urllib.utf8_replace s = s.

(** [quote(s, safe=' ')], the step of [quote_plus] before the spaces are
    replaced. *)
Definition quote_byte_space (c : ascii) : string :=
  if decide (c = " "%char) then " " else Urllib.quote_byte c.

Fixpoint quote_space (s : string) : string :=
  match s with
  | "" => ""
  | String c r => quote_byte_space c +:+ quote_space r
  end.

Definition is_ascii (c : ascii) : bool := (Py.code c <? 128)%N.

Definition not_comma (c : ascii) : bool := negb (bool_decide (c = ","%char)).

(** ** The specification's reading of the slug resolver *)

(** The canonical path of a request: [/<name>-<expected>], then the table,
    the extension and [.db] when the route has them... *)
Definition canonical_path (name expected : string)
    (kwargs : gmap string string) : string :=
  "/" +:+ name +:+ "-" +:+ expected +:+
  match kwargs !! "table" with Some table => "/" +:+ table | None => "" end +:+
  default "" (kwargs !! "as_json") +:+
  default "" (kwargs !! "as_db").

(** ... and then the query string of the request. *)
Definition canonical_target (name expected : string)
    (kwargs : gmap string string) (request : Request) : string :=
  canonical_path name expected kwargs +:+
  (if decide (query_string request = "") then ""
   else "?" +:+ query_string request).

Definition canonical_redirect {D E} (target : string) : Response D E :=
  {| status := 302;
     headers := <["Link" := "<" +:+ target +:+ ">; rel=preload"]>
                  {["Location" := target]};
     body := BodyEmpty |}.

(** The progress handler installed on the connection of [db_name]. *)
Definition installed_handler (w : World) (db_name : string)
    : option ProgressHandler :=
  conn ← connections w !! db_name; conn_progress_handler conn.

(** ** The specification's reading of the request arguments *)



(** The parameters that the [_after] branch binds for the cursor components,
    the first one under [p<n>]. *)
Fixpoint bound_cursor (n : nat) (pairs : list (string * string))
    (params : gmap string pyval) : gmap string pyval :=
  match pairs with
  | [] => params
  | (pk, value) :: pairs =>
      bound_cursor (S n) pairs (<["p" +:+ pretty n := PyStr value]> params)
  end.

(** One component of the cursor against the row: [row[pk] > value]. *)
Definition component_gt (row : Row) (pair : string * string) : bool :=
  match row_get row pair.1 with
  | Ok v => sqlite_gt v (PyStr pair.2)
  | Raise _ => false
  end.

(** ** A small database to run the model on *)

Module Fixture.

Definition digest : string :=
  "a1b2c3d4e5f60718293a4b5c6d7e8f90a1b2c3d4e5f60718293a4b5c6d7e8f90".

Definition ds : Datasette :=
  {| metadata :=
       {["fixtures" := {| info_hash := digest;
                          info_file := "fixtures.db";
                          info_tables := {["pets" := 3]} |}]};
     page_size := 2;
     cache_headers := true |}.

Definition table_info : Cursor :=
  {| description := ["cid"; "name"; "type"; "notnull"; "dflt_value"; "pk"];
     fetchall :=
       [[SqlInt 0; SqlText "id"; SqlText "integer"; SqlInt 0; SqlNull; SqlInt 1];
        [SqlInt 1; SqlText "name"; SqlText "text"; SqlInt 0; SqlNull; SqlInt 0]] |}.

Definition pets_ddl : string :=
  "CREATE TABLE pets (id integer primary key, name text)".

Definition pets : Cursor :=
  {| description := ["id"; "name"];
     fetchall := [[SqlInt 1; SqlText "cat"];
                  [SqlInt 2; SqlText "dog"];
                  [SqlInt 3; SqlText "eel"]] |}.

(** An engine that knows the table [pets] of three rows and nothing else. *)
Definition conn_execute (conn : Connection) (sql : string)
    (params : gmap string pyval) : result Cursor :=
  if Py.startswith "PRAGMA table_info" sql then Ok table_info
  else if Py.startswith "SELECT count(*) from sqlite_master" sql then
    Ok {| description := ["count(*)"]; fetchall := [[SqlInt 0]] |}
  else if Py.startswith "select sql from sqlite_master" sql then
    Ok {| description := ["sql"]; fetchall := [[SqlText pets_ddl]] |}
  else if Py.startswith ("select * from " +:+ Py.dquote +:+ "pets" +:+ Py.dquote) sql
  then Ok pets
  else if Py.startswith "select 1" sql then
    Ok {| description := ["1"]; fetchall := [[SqlInt 1]] |}
  else Raise (OperationalError "no such table").

(** A worker that has not opened any connection yet. *)
Definition world : World := {| clock := 0; connections := ∅ |}.

Definition connected (handler : option ProgressHandler) : World :=
  {| clock := 0;
     connections :=
       {["fixtures" := {| conn_file := "file:fixtures.db?immutable=1";
                          conn_progress_handler := handler |}]} |}.

(** [GET /fixtures-a1b2c3d/pets] *)
Definition pets_request : Request :=
  {| path := "/fixtures-a1b2c3d/pets"; query_string := ""; args := [] |}.

Definition pets_data : TableData :=
  {| td_database := "fixtures";
     td_table := "pets";
     td_is_view := false;
     td_view_definition := None;
     td_table_definition := Some (SqlText pets_ddl);
     td_rows := [[("id", SqlInt 1); ("name", SqlText "cat")];
                 [("id", SqlInt 2); ("name", SqlText "dog")]];
     td_table_rows := Some 3;
     td_columns := ["id"; "name"];
     td_primary_keys := ["id"];
     td_query_sql :=
       "select * from " +:+ Py.dquote +:+ "pets" +:+ Py.dquote +:+
       " order by id limit 3";
     td_query_params := ∅;
     td_after := Some "2" |}.

Definition pets_extra : TableExtra :=
  {| te_database_hash := "a1b2c3d";
     te_use_rowid := false;
     te_display_columns := ["id"; "name"];
     te_after_link := Some "/fixtures-a1b2c3d/pets?_after=2" |}.

(** [GET /fixtures-a1b2c3d?sql=select+1&x=1] *)
Definition sql_request : Request :=
  {| path := "/fixtures-a1b2c3d";
     query_string := "sql=select+1&x=1";
     args := [("sql", ["select 1"]); ("x", ["1"])] |}.

End Fixture.


(** ** utils.py: escaping *)

(** The characters of [_css_re]: the two quotes, the newline and the
    backslash. *)
Definition css_special (c : ascii) : bool :=
  bool_decide (c = "'"%char) || bool_decide (c = "034"%char) ||
  bool_decide (c = "010"%char) || bool_decide (c = "\"%char).

(** ['{:X}'.format(n)] for the code of a byte: upper-case hexadecimal
    without padding. *)
Definition format_X (n : N) : string :=
  (if n <? 16 then String (Urllib.hex_char n) ""
   else String (Urllib.hex_char (n / 16))
          (String (Urllib.hex_char (n `mod` 16)) ""))%N.

Definition escape_css_char (c : ascii) : string :=
  if css_special c then Py.format "\{}" [format_X (Py.code c)]
  else String c "".

Fixpoint escape_css_string (s : string) : string :=
  match s with
  | "" => ""
  | String c r => escape_css_char c +:+ escape_css_string r
  end.

Definition ident_start (c : ascii) : bool :=
  Py.in_range 97 122 c || Py.in_range 65 90 c || bool_decide (c = "_"%char).

Definition ident_char (c : ascii) : bool :=
  ident_start c || Py.in_range 48 57 c.

(** The rest of [_boring_table_name_re] after its first character:
    [[a-zA-Z0-9_]*$], where [$] is the end of the string or the place
    before a newline that ends the string. *)
Fixpoint ident_tail (s : string) : bool :=
  match s with
  | "" => true
  | String c r =>
      if ident_char c then ident_tail r
      else bool_decide (c = "010"%char) && bool_decide (r = "")
  end.

(** [_boring_table_name_re.match(s)] *)
Definition boring_table_name (s : string) : bool :=
  match s with
  | "" => false
  | String c r => ident_start c && ident_tail r
  end.

Definition escape_sqlite_table_name (s : string) : string :=
  if boring_table_name s then s else Py.format "[{}]" [s].


(** A character that would end a quoted CSS string: a quote or a newline. *)
Definition css_unsafe (c : ascii) : bool :=
  bool_decide (c = "'"%char) || bool_decide (c = "034"%char) ||
  bool_decide (c = "010"%char).


(** [s.count(c)] for a character. *)
Fixpoint count_char (c : ascii) (s : string) : nat :=
  match s with
  | "" => 0
  | String d r => ((if decide (d = c) then 1 else 0) + count_char c r)%nat
  end.

(** The characters a cursor token is made of: the ones [quote_plus] leaves
    alone, the [+] and [%] it writes, and the comma between components. *)
Definition token_char (c : ascii) : bool :=
  Urllib.always_safe c || bool_decide (c = "+"%char) ||
  bool_decide (c = "%"%char) || bool_decide (c = ","%char).


(** The errors [view_get] turns into a response. *)
Definition sql_error_message (e : exn) : option string :=
  match e with
  | InvalidSql msg | OperationalError msg => Some msg
  | _ => None
  end.

(** The body of the error response. *)
Definition error_body {D E} (request : Request) (as_json : option string)
    (msg name hash : string) : Body D E :=
  if decide (default "" as_json = "") then
    BodyHtml "error.html" (PayloadError msg name hash) None
      (path_with_ext request ".json") (path_with_ext request ".jsono")
  else BodyJson (default "" as_json) (PayloadError msg name hash).

(** ** app.py: the index, the database view and the row view *)

(** An entry of the [databases] list of [IndexView.get]. *)
Record IndexEntry : Type := {
  ie_name : string;
  ie_hash : string;
  ie_path : string;
  ie_tables_truncated : list (string * Z);
  ie_tables_count : nat;
  ie_tables_more : bool;
  ie_table_rows : Z;
}.

(** An entry of the [tables] list of [DatabaseView.data]; the columns are
    the second cells of the rows of [PRAGMA table_info]. *)
Record TableSummary : Type := {
  ts_name : string;
  ts_columns : list sqlval;
  ts_table_rows : Z;
}.

(** The [data] of [DatabaseView.data] when it lists the tables; its extra
    template data is the [database_hash] alone. *)
Record DatabaseData : Type := {
  dd_database : string;
  dd_tables : list TableSummary;
  dd_views : list sqlval;
}.

(** The [data] of [RowView.data]; its extra template data is the
    [database_hash], the [row_link] being [None]. *)
Record RowData : Type := {
  rd_database : string;
  rd_table : string;
  rd_rows : list Row;
  rd_columns : list string;
  rd_primary_keys : list string;
  rd_primary_key_values : list string;
}.

(** [sorted(xs, key=..., reverse=True)]: the list is reversed, sorted by the
    stable sort, and reversed again, so that equal elements keep their
    order. *)
Definition py_sorted_reverse {A} (leb : A → A → bool) (l : list A) : list A :=
  reverse (py_sorted leb (reverse l)).

(** [sum(xs)] *)
Definition py_sum (xs : list Z) : Z := foldl Z.add 0 xs.

(** [for x in xs: ...] with a body that runs statements. *)
Fixpoint M_mapM {A B} (f : A → M B) (l : list A) : M (list B) :=
  match l with
  | [] => mret []
  | x :: l => y ← f x; ys ← M_mapM f l; mret (y :: ys)
  end.

(** [request.args.get(key)]: the first value of the key, [None] when the key
    is missing. *)
Definition args_get (request : Request) (key : string)
    : result (option string) :=
  match list_find (λ kv, kv.1 = key) (args request) with
  | Some (_, (_, value)) => v ← first_value value; mret (Some v)
  | None => Ok None
  end.

(** The [wheres] of [RowView.data]: one equality per key column. *)
Definition row_wheres (pks : list string) : list string :=
  imap (λ i pk, Py.format (Py.dquote +:+ "{}" +:+ Py.dquote +:+ "=:p{}")
                  [pk; pretty i]) pks.

(** The loop that binds the components of the path, the first under [p0]. *)
Definition row_params (pk_values : list string) : gmap string pyval :=
  foldl (λ params iv, <[Py.format "p{}" [pretty iv.1] := PyStr iv.2]> params)
        ∅ (imap pair pk_values).

Section views.

Variable conn_execute :
  Connection → string → gmap string pyval → result Cursor.

Variable ds : Datasette.

(** The items of the [tables] dictionary of a catalog entry in the order
    the dictionary has them, its order of insertion, which a [gmap] does not
    record. *)
Variable dict_items : gmap string Z → list (string * Z).

(** [str(xs)] for a list of strings, as [format] prints it. *)
Variable repr_list : list string → string.

(** *** IndexView *)

Definition index_database (key : string) (info : DatabaseInfo) : IndexEntry :=
  let items := dict_items (info_tables info) in
  {| ie_name := key;
     ie_hash := info_hash info;
     ie_path := Py.format "{}-{}" [key; String.substring 0 7 (info_hash info)];
     ie_tables_truncated :=
       take 5 (py_sorted_reverse (λ p q, p.2 <=? q.2) items);
     ie_tables_count := length items;
     ie_tables_more := bool_decide (5 < length items)%nat;
     ie_table_rows := py_sum items.*2 |}.

(** The [databases] list of [IndexView.get].  The keys of the catalog are
    distinct, so the order of [sorted(metadata().items())] is the order of
    the keys, whatever order the dictionary has. *)
Definition IndexView_databases : list IndexEntry :=
  (λ kv, index_database kv.1 kv.2) <$>
    py_sorted (λ x y, str_leb x.1 y.1) (map_to_list (metadata ds)).

(** *** DatabaseView *)

Definition table_summary (name : string) (item : string * Z)
    : M TableSummary :=
  let '(table_name, table_rows) := item in
  rows ← execute conn_execute ds name
    (Py.format "PRAGMA table_info([{}]);" [table_name]) None;
  columns ← lift (result_mapM (λ r, row_at r 1) (cursor_rows rows));
  mret {| ts_name := table_name;
          ts_columns := columns;
          ts_table_rows := table_rows |}.

Definition DatabaseView_data (request : Request) (name hash : string)
    : M ((QueryData * QueryExtra) + (DatabaseData * string)) :=
  sql ← lift (args_get request "sql");
  if decide (default "" sql = "") then
    info ← lift (dict_get (metadata ds) name);
    let table_metadata := info_tables info in
    tables ← M_mapM (table_summary name) (dict_items table_metadata);
    let tables := py_sorted (λ a b, str_leb (ts_name a) (ts_name b)) tables in
    views ← execute conn_execute ds name
      ("select name from sqlite_master where type = " +:+
       Py.dquote +:+ "view" +:+ Py.dquote) None;
    view_names ← lift (result_mapM (λ v, row_at v 0) (cursor_rows views));
    mret (inr ({| dd_database := name;
                  dd_tables := tables;
                  dd_views := view_names |}, hash))
  else
    r ← custom_sql conn_execute ds request name hash;
    mret (inl r).

(** *** RowView *)

Definition RowView_data (request : Request) (name hash table pk_path : string)
    : M (RowData * string) :=
  let table := Urllib.unquote_plus table in
  let pk_values := compound_pks_from_path pk_path in
  pks ← pks_for_table conn_execute ds name table;
  let use_rowid := bool_decide (pks = []) in
  let select := if use_rowid then "rowid, *" else "*" in
  let pks := if use_rowid then ["rowid"] else pks in
  let wheres := row_wheres pks in
  let sql :=
    Py.format ("select {} from " +:+ Py.dquote +:+ "{}" +:+ Py.dquote +:+
               " where {}")
      [select; table; Py.join " AND " wheres] in
  let params := row_params pk_values in
  rows ← execute conn_execute ds name sql (Some params);
  let columns := description rows in
  let rows := cursor_rows rows in
  if decide (rows = []) then
    lift (Raise (NotFound (Py.format "Record not found: {}"
                             [repr_list pk_values])))
  else
    mret ({| rd_database := name;
             rd_table := table;
             rd_rows := rows;
             rd_columns := columns;
             rd_primary_keys := pks;
             rd_primary_key_values := pk_values |}, hash).

End views.

(** A database of six tables, two of them of the same size, and a catalog
    that holds it beside the database of the fixture. *)
Definition Fixture_zoo : DatabaseInfo :=
  {| info_hash := "0f1e2d3c4b5a69788796a5b4c3d2e1f00f1e2d3c4b5a69788796a5b4c3d2e1f0";
     info_file := "zoo.db";
     info_tables :=
       <["ants" := 900]> (<["bees" := 40]> (<["cats" := 7]>
         (<["dogs" := 40]> (<["eels" := 1]> {["fish" := 12]})))) |}.

Definition Fixture_catalog : Datasette :=
  {| metadata :=
       <["zoo" := Fixture_zoo]>
         {["fixtures" := {| info_hash := Fixture.digest;
                            info_file := "fixtures.db";
                            info_tables := {["pets" := 3]} |}]};
     page_size := 2;
     cache_headers := true |}.

(** An engine that knows the columns of [pets] and finds no row and no
    view. *)
Definition Fixture_empty_engine (conn : Connection) (sql : string)
    (params : gmap string pyval) : result Cursor :=
  if Py.startswith "PRAGMA table_info" sql then Ok Fixture.table_info
  else if Py.startswith "select name from sqlite_master" sql then
    Ok {| description := ["name"]; fetchall := [] |}
  else Ok {| description := ["id"; "name"]; fetchall := [] |}.

(** An engine that knows one view, [pets_view], over the three rows of
    [pets]: no column of a view is a key column. *)
Definition Fixture_view_engine (conn : Connection) (sql : string)
    (params : gmap string pyval) : result Cursor :=
  if Py.startswith "PRAGMA table_info" sql then
    Ok {| description := ["cid"; "name"; "type"; "notnull"; "dflt_value"; "pk"];
          fetchall :=
            [[SqlInt 0; SqlText "id"; SqlText "integer"; SqlInt 0; SqlNull;
              SqlInt 0];
             [SqlInt 1; SqlText "name"; SqlText "text"; SqlInt 0; SqlNull;
              SqlInt 0]] |}
  else if Py.startswith "SELECT count(*) from sqlite_master" sql then
    Ok {| description := ["count(*)"]; fetchall := [[SqlInt 1]] |}
  else if Py.startswith "select sql from sqlite_master" sql then
    Ok {| description := ["sql"];
          fetchall := [[SqlText "CREATE VIEW pets_view AS select * from pets"]] |}
  else if Py.startswith "select * from " sql then Ok Fixture.pets
  else Raise (OperationalError "no such table").

(** An engine for a table that is not in the database: no column, no view
    and no definition of that name. *)
Definition Fixture_missing_engine (conn : Connection) (sql : string)
    (params : gmap string pyval) : result Cursor :=
  if Py.startswith "PRAGMA table_info" sql then
    Ok {| description := ["cid"; "name"; "type"; "notnull"; "dflt_value"; "pk"];
          fetchall := [] |}
  else if Py.startswith "SELECT count(*) from sqlite_master" sql then
    Ok {| description := ["count(*)"]; fetchall := [[SqlInt 0]] |}
  else if Py.startswith "select sql from sqlite_master" sql then
    Ok {| description := ["sql"]; fetchall := [] |}
  else Raise (OperationalError "no such table").

(** An engine that knows a table with the columns [a], [b], [c] and the
    primary key [(b, a)]. *)
Definition Fixture_compound_engine (conn : Connection) (sql : string)
    (params : gmap string pyval) : result Cursor :=
  Ok {| description := ["cid"; "name"; "type"; "notnull"; "dflt_value"; "pk"];
        fetchall :=
          [[SqlInt 0; SqlText "a"; SqlText "integer"; SqlInt 0; SqlNull;
            SqlInt 2];
           [SqlInt 1; SqlText "b"; SqlText "text"; SqlInt 0; SqlNull;
            SqlInt 1];
           [SqlInt 2; SqlText "c"; SqlText "text"; SqlInt 0; SqlNull;
            SqlInt 0]] |}.

(** [str(xs)] for strings that need no escaping: each one between single
    quotes. *)
Definition Fixture_repr_list (xs : list string) : string :=
  "[" +:+ Py.join ", " ((λ x, "'" +:+ x +:+ "'") <$> xs) +:+ "]".

(** A row of [PRAGMA table_info] that stands for a key column: its last
    cell, the [pk] flag, is true. *)
Definition is_key_row (row : Row) : bool :=
  match row_last row with
  | Ok v => truthy v
  | Raise _ => false
  end.


(** * Properties *)

Example quote_plus_ex :
  Urllib.quote_plus "a b,c/d" = "a+b%2Cc%2Fd".
Proof. reflexivity. Qed.

Example unquote_plus_ex :
  Urllib.unquote_plus "a+b%2cc%2Fd%zz%4" = "a b,c/d%zz%4".
Proof. reflexivity. Qed.

Example unquote_plus_ill_formed :
  Urllib.unquote_plus "x%E2%82y%FF" =
  "x" +:+ Urllib.replacement +:+ "y" +:+ Urllib.replacement.
Proof. reflexivity. Qed.

Example build_where_clauses_ex :
  build_where_clauses (<["name__contains" := "x"]> (<["age__gt" := "30"]> ∅)) =
  Ok ([Py.dquote +:+ "age" +:+ Py.dquote +:+ " > :p0";
       Py.dquote +:+ "name" +:+ Py.dquote +:+ " like :p1"],
      <["p1" := PyStr "%x%"]> (<["p0" := PyInt 30]> ∅)).
Proof. vm_compute. reflexivity. Qed.

(** ** Strings *)

Section string_facts.
Implicit Types s p sep a b : string.

Lemma app_cons c s1 s2 : String c s1 +:+ s2 = String c (s1 +:+ s2).
Proof. reflexivity. Qed.

Lemma app_empty_l s : "" +:+ s = s.
Proof. reflexivity. Qed.

Lemma app_empty_r s : s +:+ "" = s.
Proof. induction s as [|c s IH]; [done|]. by rewrite app_cons, IH. Qed.

Lemma app_assoc_str s1 s2 s3 : (s1 +:+ s2) +:+ s3 = s1 +:+ (s2 +:+ s3).
Proof. induction s1 as [|c s1 IH]; [done|]. by rewrite !app_cons, IH. Qed.

Lemma startswith_app p s : Py.startswith p (p +:+ s) = true.
Proof.
  induction p as [|c p IH]; [by destruct s|].
  rewrite app_cons. simpl. by rewrite decide_True.
Qed.

Lemma startswith_inv p s :
  Py.startswith p s = true → s = p +:+ Py.drop (String.length p) s.
Proof.
  revert s. induction p as [|c p IH]; intros s H; [done|].
  destruct s as [|d s]; [done|]. simpl in H.
  destruct (decide (c = d)) as [->|]; [|done].
  rewrite app_cons. simpl. f_equal. by apply IH.
Qed.

Lemma contains_app_r sub a b :
  Py.contains sub b = true → Py.contains sub (a +:+ b) = true.
Proof.
  intros H. induction a as [|c a IH]; [done|].
  rewrite app_cons. simpl. rewrite IH. apply orb_true_r.
Qed.

Lemma contains_startswith sub s :
  Py.startswith sub s = true → Py.contains sub s = true.
Proof. intros H. destruct s; simpl; by rewrite H. Qed.

(** [rsplit] cuts at an occurrence of the separator... *)
Lemma rsplit_last_app sep s a b :
  Py.rsplit_last sep s = Some (a, b) → s = a +:+ sep +:+ b.
Proof.
  revert a. induction s as [|c s IH]; intros a H; [done|].
  simpl in H. destruct (Py.rsplit_last sep s) as [[a' b']|] eqn:E.
  - simplify_eq. rewrite app_cons. f_equal. by apply IH.
  - destruct (Py.startswith sep (String c s)) eqn:P; [|done].
    simplify_eq. by apply startswith_inv in P.
Qed.

Lemma rsplit_last_None sep s :
  sep ≠ "" → Py.rsplit_last sep s = None → Py.contains sep s = false.
Proof.
  intros Hsep. induction s as [|c s IH]; intros H.
  - by destruct sep.
  - simpl in H. destruct (Py.rsplit_last sep s) as [[??]|]; [done|].
    change (Py.contains sep (String c s))
      with (Py.startswith sep (String c s) || Py.contains sep s).
    destruct (Py.startswith sep (String c s)); [done|]. by rewrite IH.
Qed.

Lemma rsplit_last_absent sep s :
  Py.contains sep s = false → Py.rsplit_last sep s = None.
Proof.
  induction s as [|c s IH]; intros H; [done|].
  change (Py.contains sep (String c s))
    with (Py.startswith sep (String c s) || Py.contains sep s) in H.
  apply orb_false_iff in H as [H1 H2]. simpl Py.rsplit_last.
  rewrite (IH H2). by rewrite H1.
Qed.

Lemma rsplit_last_present sep s :
  sep ≠ "" → Py.contains sep s = true → is_Some (Py.rsplit_last sep s).
Proof.
  intros Hsep H. destruct (Py.rsplit_last sep s) eqn:E; [by eexists|].
  apply rsplit_last_None in E; [congruence|done].
Qed.

(** ... and no occurrence starts to the right of the cut. *)
Lemma rsplit_last_rightmost sep s a b :
  sep ≠ "" →
  Py.rsplit_last sep s = Some (a, b) →
  Py.contains sep (Py.drop 1 (sep +:+ b)) = false.
Proof.
  intros Hsep. revert a. induction s as [|c s IH]; intros a H; [done|].
  simpl in H. destruct (Py.rsplit_last sep s) as [[a' b']|] eqn:E.
  - simplify_eq. by eapply IH.
  - destruct (Py.startswith sep (String c s)) eqn:P; [|done].
    simplify_eq. apply startswith_inv in P. rewrite <-P. simpl.
    by apply rsplit_last_None.
Qed.

Lemma rsplit1_present sep s :
  sep ≠ "" → Py.contains sep s = true →
  Py.unpack2 (Py.rsplit1 sep s) =
    Ok (default ("", "") (Py.rsplit_last sep s)).
Proof.
  intros Hsep H. unfold Py.rsplit1.
  by destruct (rsplit_last_present sep s Hsep H) as [[a b] ->].
Qed.

End string_facts.

(** ** The SQL validator *)




(** ** The WHERE-clause builder, one key at a time *)



Lemma format_param x : Py.format "p{}" [x] = "p" +:+ x.
Proof. cbn. by rewrite app_empty_r. Qed.




(** ** [sorted] sorts *)

Section sorted_facts.
Context {A : Type} (leb : A → A → bool).
Hypothesis leb_total : ∀ x y, leb x y = true ∨ leb y x = true.
Hypothesis leb_trans : ∀ x y z, leb x y = true → leb y z = true → leb x z = true.

Lemma sorted_insert_perm x l : sorted_insert leb x l ≡ₚ x :: l.
Proof using Type.
  induction l as [|y l IH]; simpl; [done|].
  destruct (leb x y); [done|]. rewrite IH. apply Permutation_swap.
Qed.

Lemma py_sorted_perm l : py_sorted leb l ≡ₚ l.
Proof using Type.
  induction l as [|x l IH]; simpl; [done|].
  by rewrite sorted_insert_perm, IH.
Qed.

Lemma sorted_insert_sorted x l :
  StronglySorted (λ a b, leb a b = true) l →
  StronglySorted (λ a b, leb a b = true) (sorted_insert leb x l).
Proof using leb_total leb_trans.
  induction 1 as [|y l Hl IH Hy]; simpl.
  - by repeat constructor.
  - destruct (leb x y) eqn:E.
    + constructor; [by constructor|]. constructor; [done|].
      eapply Forall_impl; [exact Hy|]. intros z ?. by eapply leb_trans.
    + constructor; [done|]. rewrite sorted_insert_perm.
      constructor; [|done]. destruct (leb_total x y); congruence.
Qed.

Lemma py_sorted_sorted l :
  StronglySorted (λ a b, leb a b = true) (py_sorted leb l).
Proof using leb_total leb_trans.
  induction l as [|x l IH]; simpl; [constructor|].
  by apply sorted_insert_sorted.
Qed.
End sorted_facts.

Lemma str_ltb_spec a b : str_ltb a b = true ↔ (a ≤ b)%string ∧ a ≠ b.
Proof.
  unfold str_ltb, str_leb.
  rewrite andb_true_iff, negb_true_iff, bool_decide_eq_true, bool_decide_eq_false.
  done.
Qed.

Global Instance str_lt_strict : StrictOrder str_lt.
Proof.
  split.
  - intros a [_ H]%str_ltb_spec. done.
  - intros a b c [H1 N1]%str_ltb_spec [H2 N2]%str_ltb_spec.
    apply str_ltb_spec. split; [by etrans|].
    intros ->. apply N1. by apply (anti_symm String.le).
Qed.








(** ** The loop of the WHERE-clause builder *)




Lemma param_name_inj (i j : nat) :
  "p" +:+ pretty i = "p" +:+ pretty j → i = j.
Proof. intros H. by apply (inj pretty), (inj (String.app "p")). Qed.
















(** ** The cursor codec *)

Lemma replace_char_app a b s1 s2 :
  Py.replace_char a b (s1 +:+ s2) =
  Py.replace_char a b s1 +:+ Py.replace_char a b s2.
Proof. induction s1 as [|c s1 IH]; [done|]. rewrite app_cons. simpl. by rewrite IH. Qed.

Lemma replace_quote_byte c :
  Py.replace_char "+" " " (Urllib.quote_byte c) = quote_byte_space c.
Proof. by destruct c as [[] [] [] [] [] [] [] []]. Qed.

Lemma replace_quote_plus s :
  Py.replace_char "+" " " (Urllib.quote_plus s) = quote_space s.
Proof.
  induction s as [|c s IH]; [done|]. simpl.
  by rewrite replace_char_app, replace_quote_byte, IH.
Qed.

Lemma unquote_quote_byte c rest :
  Urllib.unquote_to_bytes (quote_byte_space c +:+ rest) =
  String c (Urllib.unquote_to_bytes rest).
Proof. by destruct c as [[] [] [] [] [] [] [] []]. Qed.

Lemma unquote_to_bytes_quote s :
  Urllib.unquote_to_bytes (quote_space s) = s.
Proof.
  induction s as [|c s IH]; [done|]. simpl.
  by rewrite unquote_quote_byte, IH.
Qed.

Lemma contains_cons sub c s :
  Py.contains sub (String c s) =
  Py.startswith sub (String c s) || Py.contains sub s.
Proof. reflexivity. Qed.

Lemma quote_byte_space_cases c :
  (quote_byte_space c = String c "" ∧ c ≠ "%"%char) ∨
  (∃ t, quote_byte_space c = String "%" t).
Proof.
  destruct c as [[] [] [] [] [] [] [] []];
    first [left; split; [reflexivity|discriminate]
          |right; eexists; reflexivity].
Qed.

Lemma quote_space_no_percent s :
  Py.contains "%" (quote_space s) = false → quote_space s = s.
Proof.
  induction s as [|c s IH]; [done|]. simpl.
  destruct (quote_byte_space_cases c) as [[-> Hc]|[t ->]].
  - rewrite app_cons, app_empty_l, contains_cons.
    intros [_ H]%orb_false_iff. f_equal. by apply IH.
  - rewrite app_cons, contains_cons. done.
Qed.

Lemma all_chars_app p s1 s2 :
  Py.all_chars p (s1 +:+ s2) = Py.all_chars p s1 && Py.all_chars p s2.
Proof.
  induction s1 as [|c s1 IH]; [done|]. rewrite app_cons. simpl.
  by rewrite IH, andb_assoc.
Qed.

Lemma quote_space_ascii s : Py.all_chars is_ascii (quote_space s) = true.
Proof.
  induction s as [|c s IH]; [done|]. simpl. rewrite all_chars_app, IH.
  by destruct c as [[] [] [] [] [] [] [] []].
Qed.

Lemma ascii_runs_ascii s :
  Py.all_chars is_ascii s = true → s ≠ "" →
  Urllib.ascii_runs s = [(true, s)].
Proof.
  induction s as [|c s IH]; [done|]. simpl.
  intros [Hc Hs]%andb_true_iff _. unfold is_ascii in Hc. rewrite Hc.
  destruct s as [|d s]; [done|]. by rewrite IH.
Qed.

(** [unquote_plus] undoes [quote_plus] on well-formed text. *)
Lemma unquote_plus_quote_plus s :
  well_formed s → Urllib.unquote_plus (Urllib.quote_plus s) = s.
Proof.
  intros Hs. unfold Urllib.unquote_plus, Urllib.unquote.
  rewrite replace_quote_plus.
  destruct (Py.contains "%" (quote_space s)) eqn:E.
  - rewrite ascii_runs_ascii.
    + cbn. unfold Urllib.unquote_run. cbn.
      by rewrite unquote_to_bytes_quote.
    + apply quote_space_ascii.
    + intros Hq. by rewrite Hq in E.
  - by apply quote_space_no_percent.
Qed.

Lemma quote_plus_no_comma s :
  Py.all_chars not_comma (Urllib.quote_plus s) = true.
Proof.
  induction s as [|c s IH]; [done|]. simpl. rewrite all_chars_app, IH.
  by destruct c as [[] [] [] [] [] [] [] []].
Qed.

Lemma split_no_sep s : Py.all_chars not_comma s = true → Py.split "," s = [s].
Proof.
  induction s as [|c s IH]; [done|]. simpl.
  intros [Hc Hs]%andb_true_iff. unfold not_comma in Hc.
  apply negb_true_iff, bool_decide_eq_false in Hc.
  rewrite decide_False by done. by rewrite IH.
Qed.

Lemma split_app s rest :
  Py.all_chars not_comma s = true →
  Py.split "," (s +:+ "," +:+ rest) = s :: Py.split "," rest.
Proof.
  induction s as [|c s IH]; [done|]. rewrite app_cons. simpl.
  intros [Hc Hs]%andb_true_iff. unfold not_comma in Hc.
  apply negb_true_iff, bool_decide_eq_false in Hc.
  rewrite decide_False by done. by rewrite IH.
Qed.

Lemma split_join bits :
  bits ≠ [] → Forall (λ b, Py.all_chars not_comma b = true) bits →
  Py.split "," (Py.join "," bits) = bits.
Proof.
  intros Hne H. induction H as [|b bits Hb Hbits IH]; [done|].
  destruct bits as [|b' bits].
  - simpl. by apply split_no_sep.
  - change (Py.join "," (b :: b' :: bits))
      with (b +:+ "," +:+ Py.join "," (b' :: bits)).
    rewrite split_app by done. by rewrite IH.
Qed.

Ltac simpl_result :=
  unfold mbind, mret, result_bind, result_ret in *; cbv beta iota in *.

Lemma result_mapM_Ok_bind {A B C} (f : A → result B) (g : B → C) l ys :
  result_mapM f l = Ok ys →
  result_mapM (λ x, y ← f x; mret (g y)) l = Ok (g <$> ys).
Proof.
  revert ys. induction l as [|x l IH]; intros ys H; simplify_eq/=; [done|].
  simpl_result. destruct (f x) as [y|]; simplify_eq/=.
  destruct (result_mapM f l) as [ys'|]; simplify_eq.
  by rewrite (IH ys' eq_refl).
Qed.

Lemma result_mapM_length {A B} (f : A → result B) l ys :
  result_mapM f l = Ok ys → length ys = length l.
Proof.
  revert ys. induction l as [|x l IH]; intros ys H; simplify_eq/=; [done|].
  simpl_result. destruct (f x) as [y|]; simplify_eq/=.
  destruct (result_mapM f l) as [ys'|]; simplify_eq.
  simpl. f_equal. by apply IH.
Qed.

(** C4, as the code has it. When the cursor is made from the rowid or from
    at least one primary-key column, and the row has those columns, decoding
    the encoded cursor gives the [str] of the row's values at those columns,
    in order ([str] of well-formed text being the text itself). *)
Theorem cursor_roundtrip row pks use_rowid values :
  pk_values row pks use_rowid = Ok values →
  use_rowid = true ∨ pks ≠ [] →
  Forall (λ v, well_formed (py_str v)) values →
  ∃ token,
    path_from_row_pks row pks use_rowid = Ok token ∧
    compound_pks_from_path token = py_str <$> values.
Proof.
  unfold pk_values, path_from_row_pks, compound_pks_from_path.
  intros Hv Hne Hwf. destruct use_rowid.
  - simpl_result. destruct (row_get row "rowid") as [v|]; simplify_eq.
    eexists. split; [done|].
    rewrite split_no_sep by apply quote_plus_no_comma.
    rewrite Forall_singleton in Hwf. cbn. by rewrite unquote_plus_quote_plus.
  - destruct Hne as [|Hne]; [done|].
    pose proof (result_mapM_Ok_bind _ (λ v, Urllib.quote_plus (py_str v))
                  _ _ Hv) as Hb.
    cbv beta in Hb. rewrite Hb. simpl_result.
    eexists. split; [done|]. rewrite split_join.
    + rewrite <-list_fmap_compose. apply Forall_fmap_ext_1.
      eapply Forall_impl; [exact Hwf|]. intros v Hw. simpl.
      by apply unquote_plus_quote_plus.
    + apply result_mapM_length in Hv. destruct values, pks; done.
    + apply Forall_fmap, Forall_true. intros v. apply quote_plus_no_comma.
Qed.

(** C4, as the specification states it, fails for a view without primary keys:
    the cursor of an empty key list is the empty string, which decodes into
    one empty component. *)
Lemma cursor_roundtrip_cex :
  let row := [("id", SqlInt 1)] in
  pk_values row [] false = Ok [] ∧
  path_from_row_pks row [] false = Ok "" ∧
  compound_pks_from_path "" = [""] ∧
  compound_pks_from_path "" ≠ py_str <$> [] ∧
  length (compound_pks_from_path "") ≠ length (@nil sqlval).
Proof. by repeat split. Qed.

(** The decoder gives strings: the integer key [1] comes back as the text
    [1], the [str] of the value and not the value. *)
Example cursor_roundtrip_int :
  let row := [("id", SqlInt 1)] in
  pk_values row ["id"] false = Ok [SqlInt 1] ∧
  path_from_row_pks row ["id"] false = Ok "1" ∧
  compound_pks_from_path "1" = ["1"] ∧
  SqlText <$> compound_pks_from_path "1" ≠ [SqlInt 1].
Proof. by repeat split. Qed.

(** ** The slug resolver *)

Lemma canonical_path_eq name expected (kwargs : gmap string string) :
  (let t1 := Py.format "/{}-{}" [name; expected] in
   let t2 := match kwargs !! "table" with
             | Some table => t1 +:+ "/" +:+ table | None => t1 end in
   let t3 := match kwargs !! "as_json" with
             | Some as_json => t2 +:+ as_json | None => t2 end in
   match kwargs !! "as_db" with
   | Some as_db => t3 +:+ as_db | None => t3 end)
  = canonical_path name expected kwargs.
Proof.
  unfold canonical_path. cbn [Py.format]. cbv zeta.
  destruct (kwargs !! "table"), (kwargs !! "as_json"), (kwargs !! "as_db");
    cbn [default from_option];
    rewrite ?app_cons, ?app_empty_l, ?app_assoc_str, ?app_empty_r;
    rewrite ?app_cons, ?app_empty_l, ?app_assoc_str, ?app_empty_r;
    reflexivity.
Qed.

Lemma redirect_eq {D E} request target :
  redirect request target =
    canonical_redirect (D := D) (E := E)
      (target +:+ (if decide (query_string request = "") then ""
                   else "?" +:+ query_string request)).
Proof.
  unfold redirect, canonical_redirect.
  destruct (decide (query_string request = "")).
  - by rewrite app_empty_r.
  - cbn [Py.format]. by rewrite app_empty_r.
Qed.

Lemma resolve_db_name_split ds db_name :
  ∃ name provided,
    (if Py.contains "-" db_name then
       '(name, hash) ← Py.unpack2 (Py.rsplit1 "-" db_name);
       if decide (name ∉ dom (metadata ds))
       then mret (db_name, None)
       else mret (name, Some hash)
     else mret (db_name, None)) = Ok (name, provided) ∧
    (Py.contains "-" db_name = false → name = db_name ∧ provided = None) ∧
    (Py.contains "-" db_name = true →
       ∃ candidate hash,
         db_name = candidate +:+ "-" +:+ hash ∧
         Py.contains "-" hash = false ∧
         if decide (candidate ∈ dom (metadata ds))
         then name = candidate ∧ provided = Some hash
         else name = db_name ∧ provided = None).
Proof.
  destruct (Py.contains "-" db_name) eqn:E.
  - rewrite rsplit1_present by done.
    destruct (rsplit_last_present "-" db_name) as [[a b] Hab]; [done..|].
    rewrite Hab. simpl_result. unfold default. cbn [from_option].
    unfold id. cbv beta iota.
    pose proof (rsplit_last_app _ _ _ _ Hab) as Happ.
    pose proof (rsplit_last_rightmost "-" _ _ _ ltac:(done) Hab) as Hright.
    destruct (decide (a ∉ dom (metadata ds))) as [Hn|Hy].
    + eexists _, _. split; [reflexivity|]. split; [done|]. intros _.
      exists a, b. split; [done|]. split; [done|]. by rewrite decide_False.
    + eexists _, _. split; [reflexivity|]. split; [done|]. intros _.
      exists a, b. split; [done|]. split; [done|].
      rewrite decide_True; [done|]. by apply dec_stable.
  - eexists _, _. split; [reflexivity|]. split; [done|]. done.
Qed.

(** C6. [get] cuts the slug at its last [-] into a candidate name and a
    provided hash, and takes the whole slug as the name when the candidate
    is not in the catalog (or there is no [-]); a name that is not in the
    catalog raises [NotFound]; when the provided hash is not the first seven
    characters of the digest the answer is the redirect to
    [/<name>-<digest[:7]>] followed by the table, the extension or [.db] and
    the query string, with the [Link] preload header; otherwise the request
    goes to the handler with the name and the seven characters. *)
Theorem get_resolves_slug ds D E
    (handler : Request → string → string → gmap string string →
               M (Response D E))
    (request : Request) (db_name : string) (kwargs : gmap string string) w :
  ∃ name provided,
    (Py.contains "-" db_name = false → name = db_name ∧ provided = None) ∧
    (Py.contains "-" db_name = true →
       ∃ candidate hash,
         db_name = candidate +:+ "-" +:+ hash ∧
         Py.contains "-" hash = false ∧
         if decide (candidate ∈ dom (metadata ds))
         then name = candidate ∧ provided = Some hash
         else name = db_name ∧ provided = None) ∧
    match metadata ds !! name with
    | None => ∃ msg, get ds handler request db_name kwargs w =
                       (w, Raise (NotFound msg))
    | Some info =>
        let expected := String.substring 0 7 (info_hash info) in
        if decide (provided = Some expected) then
          get ds handler request db_name kwargs w =
            handler request name expected kwargs w
        else
          get ds handler request db_name kwargs w =
            (w, Ok (canonical_redirect
                      (canonical_target name expected kwargs request)))
    end.
Proof.
  destruct (resolve_db_name_split ds db_name) as (name & provided & Hs & H1 & H2).
  exists name, provided. split; [done|]. split; [done|].
  unfold get, resolve_db_name. cbv zeta. rewrite Hs. clear Hs H1 H2.
  cbn [mbind result_bind].
  destruct (metadata ds !! name) as [info|].
  2:{ eexists. reflexivity. }
  pose proof (canonical_path_eq name (String.substring 0 7 (info_hash info))
                kwargs) as Ht.
  cbv zeta in Ht. rewrite Ht. clear Ht.
  destruct (decide (provided = Some _)) as [->|Hne].
  - rewrite decide_False by (by intros []). reflexivity.
  - rewrite decide_True by congruence.
    unfold mbind, M_bind, lift, mret, result_ret, M_ret. cbv beta iota.
    rewrite decide_False by done. by rewrite redirect_eq.
Qed.

(** ** The time limit of [execute] *)

Ltac unfold_M :=
  repeat progress
    (unfold mbind, M_bind, mret, M_ret, lift, sqlite_timelimit, with_generator,
       sqlite_timelimit_before, sqlite_timelimit_after, set_progress_handler,
       time_time, run_statement, get_connection, dict_get;
     cbv beta iota; cbn [clock connections]).


(** C2, on the code. When the statement fails, the exception leaves the
    generator of [sqlite_timelimit] at its [yield]: [execute] raises, and the
    handler it installed is still on the connection. *)
Theorem execute_failure_keeps_handler conn_execute ds db_name sql params
    w info e :
  metadata ds !! db_name = Some info →
  (∀ conn, conn_execute conn sql (default ∅ params) = Raise e) →
  ∃ w',
    execute conn_execute ds db_name sql params w = (w', Raise e) ∧
    installed_handler w' db_name =
      Some {| ph_deadline := clock w + SQL_TIME_LIMIT_MS; ph_every := 1000 |}.
Proof.
  intros Hinfo Hfail. unfold execute, installed_handler. unfold_M.
  destruct (connections w !! db_name) as [conn|] eqn:Hc.
  - rewrite lookup_alter_eq, Hc. cbn [fmap option_fmap option_map].
    rewrite Hfail. eexists. split; [done|].
    cbn [connections]. rewrite lookup_alter_eq, Hc. done.
  - rewrite Hinfo. cbn [clock connections].
    rewrite lookup_alter_eq, lookup_insert_eq.
    cbn [fmap option_fmap option_map]. rewrite Hfail.
    eexists. split; [done|].
    cbn [connections]. rewrite lookup_alter_eq, lookup_insert_eq. done.
Qed.

(** ** The arguments of a table request *)






(** ** The table view *)

Lemma M_bind_Ok {A B} (m : M A) (f : A → M B) w w' b :
  (m ≫= f) w = (w', Ok b) →
  ∃ a w1, m w = (w1, Ok a) ∧ f a w1 = (w', Ok b).
Proof.
  unfold mbind, M_bind. destruct (m w) as [w1 [a|e]]; [|done].
  intros H. by exists a, w1.
Qed.

Lemma lift_Ok {A} (r : result A) w w' a :
  lift r w = (w', Ok a) → r = Ok a ∧ w' = w.
Proof. unfold lift. by intros [= -> ->]. Qed.

Lemma M_ret_Ok {A} (x : A) w w' a :
  (mret x : M A) w = (w', Ok a) → a = x ∧ w' = w.
Proof. unfold mret, M_ret. by intros [= -> ->]. Qed.

Lemma execute_Ok conn_execute ds db_name sql params w w' rows :
  execute conn_execute ds db_name sql params w = (w', Ok rows) →
  ∃ conn, conn_execute conn sql (default ∅ params) = Ok rows.
Proof.
  unfold execute. unfold_M.
  destruct (connections w !! db_name) as [conn|] eqn:Hc.
  - rewrite lookup_alter_eq, Hc. cbn [fmap option_fmap option_map].
    destruct (conn_execute _ sql _) eqn:E; intros [= <- <-]. by eexists.
  - destruct (metadata ds !! db_name) as [info|]; [|done].
    cbn [clock connections]. rewrite lookup_alter_eq, lookup_insert_eq.
    cbn [fmap option_fmap option_map].
    destruct (conn_execute _ sql _) eqn:E; intros [= <- <-]. by eexists.
Qed.





(** ** The [_after] cursor of a table request *)

Lemma format_after_clause pk (n : nat) :
  Py.format (Py.dquote +:+ "{}" +:+ Py.dquote +:+ " > :p{}") [pk; pretty n] =
  render_gt {| cmp_column := pk; cmp_param := "p" +:+ pretty n |}.
Proof.
  unfold render_gt. cbn [cmp_column cmp_param].
  rewrite <-(app_empty_r (pretty n)) at 2. reflexivity.
Qed.

Lemma after_comparisons_cons pk pks n :
  after_comparisons (pk :: pks) n =
  {| cmp_column := pk; cmp_param := "p" +:+ pretty n |}
    :: after_comparisons pks (S n).
Proof.
  unfold after_comparisons. rewrite imap_cons. rewrite Nat.add_0_r. f_equal.
  apply imap_ext. intros i x _. simpl. do 3 f_equal. lia.
Qed.

(** The loop appends the text of one comparison per pair, in order. *)
Lemma after_pk_loop_spec pairs n where_clauses params :
  after_pk_loop pairs n (where_clauses, params) =
    (where_clauses ++ (render_gt <$> after_comparisons pairs.*1 n),
     bound_cursor n pairs params).
Proof.
  revert n where_clauses params.
  induction pairs as [|[pk value] pairs IH]; intros n where_clauses params.
  - simpl. by rewrite app_nil_r.
  - cbn [after_pk_loop]. rewrite IH, format_after_clause, format_param.
    cbn [fmap list_fmap fst bound_cursor]. fold (@fmap list _).
    rewrite after_comparisons_cons, fmap_cons, <-app_assoc. done.
Qed.

(** A cursor whose component count is not the number of primary keys adds
    nothing. *)
Lemma apply_after_count_mismatch after pks acc :
  length (compound_pks_from_path after) ≠ length pks →
  apply_after (Some after) false pks acc = acc.
Proof.
  intros H. unfold apply_after. destruct acc.
  destruct (decide (after = "")); [done|]. by rewrite decide_False.
Qed.

(** A cursor with one component per primary key adds one comparison per
    key, in the order of the keys. *)
Lemma apply_after_count_match after pks where_clauses params :
  after ≠ "" →
  length (compound_pks_from_path after) = length pks →
  apply_after (Some after) false pks (where_clauses, params) =
    (where_clauses ++ (render_gt <$> after_comparisons pks (size params)),
     bound_cursor (size params) (zip pks (compound_pks_from_path after)) params).
Proof.
  intros Hne Hlen. unfold apply_after.
  rewrite decide_False, decide_True by done.
  rewrite after_pk_loop_spec, fst_zip by lia. done.
Qed.

Lemma bound_cursor_other n pairs params name :
  (∀ j, (j < length pairs)%nat → name ≠ "p" +:+ pretty (n + j)%nat) →
  bound_cursor n pairs params !! name = params !! name.
Proof.
  revert n params. induction pairs as [|[pk value] pairs IH];
    intros n params H; [done|].
  cbn [bound_cursor]. rewrite IH.
  - apply lookup_insert_ne. intros E. apply (H 0%nat); [simpl; lia|].
    by rewrite Nat.add_0_r.
  - intros j Hj. replace (S n + j)%nat with (n + S j)%nat by lia.
    apply H. simpl. lia.
Qed.

(** What the added clauses ask of a row: every component of its key is
    greater than the same component of the cursor. *)
Lemma after_clauses_componentwise row pairs n params :
  forallb (holds_gt row (bound_cursor n pairs params))
          (after_comparisons pairs.*1 n) =
  forallb (component_gt row) pairs.
Proof.
  revert n params. induction pairs as [|[pk value] pairs IH]; intros n params.
  - done.
  - rewrite fmap_cons, after_comparisons_cons. cbn [forallb bound_cursor fst].
    rewrite IH. f_equal. unfold holds_gt, component_gt. cbn [cmp_column cmp_param fst snd].
    rewrite bound_cursor_other.
    + by rewrite lookup_insert_eq.
    + intros j _ E%param_name_inj. lia.
Qed.

(** C1, on the code. For the keys [a, b] and the cursor [1,1], the row
    [(1, 2)] comes after the cursor in the order of [order by a, b], and the
    clauses added for the cursor ([a > :p0] and [b > :p1], both bound to
    [1]) reject it. *)
Theorem after_cursor_rejects_later_row :
  let pks := ["a"; "b"] in
  let row := [("a", SqlText "1"); ("b", SqlText "2")] in
  let comparisons := after_comparisons pks 0 in
  let params : gmap string pyval := <["p1" := PyStr "1"]> {["p0" := PyStr "1"]} in
  compound_pks_from_path "1,1" = ["1"; "1"] ∧
  apply_after (Some "1,1") false pks ([], ∅) =
    (render_gt <$> comparisons, params) ∧
  pk_values row pks false = Ok [SqlText "1"; SqlText "2"] ∧
  tuple_gt [SqlText "1"; SqlText "2"] [PyStr "1"; PyStr "1"] = true ∧
  forallb (holds_gt row params) comparisons = false.
Proof. cbv zeta. repeat split; vm_compute; reflexivity. Qed.

(** ** The model at work on the fixture *)

Example pets_page :
  TableView_data Fixture.conn_execute Fixture.ds Fixture.pets_request
    "fixtures" "a1b2c3d" "pets" Fixture.world =
  (Fixture.connected None, Ok (Fixture.pets_data, Fixture.pets_extra)).
Proof. vm_compute. reflexivity. Qed.



Lemma cursor_roundtrip_witness :
  let row := [("id", SqlInt 7); ("name", SqlText "a b,c")] in
  let values := [SqlInt 7; SqlText "a b,c"] in
  pk_values row ["id"; "name"] false = Ok values ∧
  ∃ token,
    path_from_row_pks row ["id"; "name"] false = Ok token ∧
    compound_pks_from_path token = py_str <$> values.
Proof.
  cbv zeta. split; [reflexivity|].
  apply (cursor_roundtrip [("id", SqlInt 7); ("name", SqlText "a b,c")]
           ["id"; "name"] false [SqlInt 7; SqlText "a b,c"]).
  - reflexivity.
  - right. discriminate.
  - repeat constructor; vm_compute; reflexivity.
Defined.


Lemma execute_failure_keeps_handler_witness :
  metadata Fixture.ds !! "fixtures" =
    Some {| info_hash := Fixture.digest; info_file := "fixtures.db";
            info_tables := {["pets" := 3]} |} ∧
  ∃ w',
    execute Fixture.conn_execute Fixture.ds "fixtures"
      "select * from missing" None Fixture.world =
      (w', Raise (OperationalError "no such table")) ∧
    installed_handler w' "fixtures" =
      Some {| ph_deadline := clock Fixture.world + SQL_TIME_LIMIT_MS;
              ph_every := 1000 |}.
Proof.
  split; [reflexivity|].
  apply (execute_failure_keeps_handler Fixture.conn_execute Fixture.ds
           "fixtures" "select * from missing" None Fixture.world
           {| info_hash := Fixture.digest; info_file := "fixtures.db";
              info_tables := {["pets" := 3]} |}
           (OperationalError "no such table")).
  - reflexivity.
  - intros conn. reflexivity.
Defined.





(** ** More of the model at work *)

(** The clauses added for a cursor, and what they ask of a row. *)
Lemma after_predicate row after pks where_clauses params :
  after ≠ "" →
  length (compound_pks_from_path after) = length pks →
  ∃ comparisons params',
    apply_after (Some after) false pks (where_clauses, params) =
      (where_clauses ++ (render_gt <$> comparisons), params') ∧
    length comparisons = length pks ∧
    forallb (holds_gt row params') comparisons =
      forallb (component_gt row) (zip pks (compound_pks_from_path after)).
Proof.
  intros Hne Hlen. eexists _, _.
  split; [by apply apply_after_count_match|]. split.
  - unfold after_comparisons. by rewrite length_imap.
  - rewrite <-(after_clauses_componentwise row _ (size params) params).
    by rewrite fst_zip by lia.
Qed.

(** Scenario: [GET /fixtures] is redirected to the canonical path. *)
Example redirect_without_hash :
  TableView_get Fixture.conn_execute Fixture.ds
    {| path := "/fixtures/pets.json"; query_string := "_after=2";
       args := [("_after", ["2"])] |}
    "fixtures" (<["as_json" := ".json"]> {["table" := "pets"]}) Fixture.world =
  (Fixture.world,
   Ok (canonical_redirect "/fixtures-a1b2c3d/pets.json?_after=2")).
Proof. vm_compute. reflexivity. Qed.

(** Scenario: a statement that mentions [pragma] is refused. *)
Example pragma_is_refused :
  validate_sql_select "select * from pragma_table_list" =
    Raise (InvalidSql "Statement may not contain PRAGMA") ∧
  validate_sql_select "  SELECT 1" = Ok () ∧
  validate_sql_select "selection" =
    Raise (InvalidSql "Statement must begin with SELECT").
Proof. by repeat split. Qed.

(** A filter and a cursor in one request: the cursor takes the parameter
    after those of the filters. *)
Example filter_and_cursor :
  apply_after (Some "2") false ["id"]
    ([Py.dquote +:+ "name" +:+ Py.dquote +:+ " like :p0"],
     {["p0" := PyStr "%a%"]}) =
  ([Py.dquote +:+ "name" +:+ Py.dquote +:+ " like :p0";
    Py.dquote +:+ "id" +:+ Py.dquote +:+ " > :p1"],
   <["p1" := PyStr "2"]> {["p0" := PyStr "%a%"]}).
Proof. vm_compute. reflexivity. Qed.

(** The time limit on the fixture: gone after a statement that completes,
    still there after one that fails. *)
Example handler_after_execute :
  execute Fixture.conn_execute Fixture.ds "fixtures" "select 1" None
    Fixture.world =
    (Fixture.connected None,
     Ok {| description := ["1"]; fetchall := [[SqlInt 1]] |}) ∧
  execute Fixture.conn_execute Fixture.ds "fixtures" "select * from missing"
    None Fixture.world =
    (Fixture.connected (Some {| ph_deadline := 1000; ph_every := 1000 |}),
     Raise (OperationalError "no such table")).
Proof. split; vm_compute; reflexivity. Qed.

(** Repeated keys in the query string: the first value of each is kept. *)
Example partition_first_values :
  partition_args [("_after", ["2"; "9"]); ("name", ["a"; "b"]);
                  ("_col__exact", ["x"])] (∅, ∅) =
  Ok ({["_after" := "2"]}, <["_col__exact" := "x"]> {["name" := "a"]}).
Proof. vm_compute. reflexivity. Qed.

(** The slug with the right hash, with a stale one, and an unknown name. *)
Example resolve_db_name_cases :
  resolve_db_name Fixture.ds "fixtures-a1b2c3d" {["table" := "pets"]} =
    Ok ("fixtures", "a1b2c3d", None) ∧
  resolve_db_name Fixture.ds "fixtures-0000000" {["table" := "pets"]} =
    Ok ("fixtures", "a1b2c3d", Some "/fixtures-a1b2c3d/pets") ∧
  resolve_db_name Fixture.ds "fix-tures" ∅ =
    Raise (NotFound "Database not found: fix-tures").
Proof. repeat split; vm_compute; reflexivity. Qed.

(** * Further properties of the code *)

(** ** Escaping *)

Example escape_css_string_ex :
  escape_css_string ("a'b" +:+ Py.dquote +:+ "c\d" +:+ String "010" "e") =
  "a\27b\22c\5Cd\Ae".
Proof. reflexivity. Qed.

Example escape_sqlite_table_name_ex :
  escape_sqlite_table_name "simple_primary_key" = "simple_primary_key" ∧
  escape_sqlite_table_name "123_starts_with_digits" = "[123_starts_with_digits]" ∧
  escape_sqlite_table_name "Table With Space" = "[Table With Space]" ∧
  escape_sqlite_table_name "" = "[]" ∧
  escape_sqlite_table_name (String "t" (String "010" "")) =
    String "t" (String "010" "").
Proof. by repeat split. Qed.

Lemma escape_css_char_cases c :
  (css_special c = false ∧ escape_css_char c = String c "") ∨
  (c = "'"%char ∧ escape_css_char c = "\27") ∨
  (c = "034"%char ∧ escape_css_char c = "\22") ∨
  (c = "010"%char ∧ escape_css_char c = "\A") ∨
  (c = "\"%char ∧ escape_css_char c = "\5C").
Proof.
  destruct c as [[] [] [] [] [] [] [] []];
    first [ left; split; reflexivity
          | right; left; split; reflexivity
          | right; right; left; split; reflexivity
          | right; right; right; left; split; reflexivity
          | right; right; right; right; split; reflexivity ].
Qed.

(** X1. What [escape_css_string] returns holds no quote of either kind and
    no newline, and a string without quotes, newlines and backslashes comes
    back as it is. *)
Theorem escape_css_string_safe s :
  Py.all_chars (λ c, negb (css_unsafe c)) (escape_css_string s) = true ∧
  (Py.all_chars (λ c, negb (css_special c)) s = true →
   escape_css_string s = s).
Proof.
  split.
  - induction s as [|c s IH]; [done|]. cbn [escape_css_string].
    rewrite all_chars_app, IH, andb_true_r.
    destruct (escape_css_char_cases c) as [[Hc ->]|[[-> ->]|[[-> ->]|[[-> ->]|[-> ->]]]]];
      try reflexivity.
    cbn. rewrite andb_true_r. apply negb_true_iff.
    unfold css_special in Hc. unfold css_unsafe.
    apply orb_false_iff in Hc as [Hc _]. exact Hc.
  - induction s as [|c s IH]; [done|]. cbn [Py.all_chars escape_css_string].
    intros [Hc Hs]%andb_true_iff. apply negb_true_iff in Hc.
    unfold escape_css_char. rewrite Hc, IH by done. reflexivity.
Qed.

Lemma escape_css_char_inj c1 c2 r1 r2 :
  escape_css_char c1 +:+ r1 = escape_css_char c2 +:+ r2 → c1 = c2 ∧ r1 = r2.
Proof.
  destruct (escape_css_char_cases c1)
    as [[H1 ->]|[[-> ->]|[[-> ->]|[[-> ->]|[-> ->]]]]];
  destruct (escape_css_char_cases c2)
    as [[H2 ->]|[[-> ->]|[[-> ->]|[[-> ->]|[-> ->]]]]];
  rewrite ?app_cons, ?app_empty_l; intros H; simplify_eq; try done.
Qed.

(** X2. [escape_css_string] loses nothing: two strings with the same
    escaped form are the same string. *)
Theorem escape_css_string_inj s1 s2 :
  escape_css_string s1 = escape_css_string s2 → s1 = s2.
Proof.
  revert s2. induction s1 as [|c1 s1 IH]; intros [|c2 s2] H.
  - done.
  - cbn [escape_css_string] in H.
    destruct (escape_css_char_cases c2)
      as [[_ E]|[[_ E]|[[_ E]|[[_ E]|[_ E]]]]]; rewrite E in H; done.
  - cbn [escape_css_string] in H.
    destruct (escape_css_char_cases c1)
      as [[_ E]|[[_ E]|[[_ E]|[[_ E]|[_ E]]]]]; rewrite E in H; done.
  - cbn [escape_css_string] in H.
    apply escape_css_char_inj in H as [-> H]. f_equal. by apply IH.
Qed.

Lemma escape_css_string_inj_witness :
  escape_css_string ("a'" +:+ "b\c") = escape_css_string ("a" +:+ "'b\c") ∧
  "a'" +:+ "b\c" = "a" +:+ "'b\c".
Proof.
  split; [reflexivity|].
  apply (escape_css_string_inj ("a'" +:+ "b\c") ("a" +:+ "'b\c")).
  reflexivity.
Defined.

Lemma length_app_str s1 s2 :
  String.length (s1 +:+ s2) = (String.length s1 + String.length s2)%nat.
Proof. induction s1 as [|c s1 IH]; [done|]. rewrite app_cons. simpl. by rewrite IH. Qed.

Lemma ident_tail_spec r :
  ident_tail r = true ↔
  ∃ body nl, r = body +:+ nl ∧ Py.all_chars ident_char body = true ∧
             (nl = "" ∨ nl = String "010" "").
Proof.
  split.
  - induction r as [|c r IH]; cbn [ident_tail].
    + intros _. exists "", "". by auto.
    + destruct (ident_char c) eqn:Hc.
      * intros (body & nl & -> & Hb & Hnl)%IH.
        exists (String c body), nl. cbn [Py.all_chars]. by rewrite Hc, Hb.
      * intros [->%bool_decide_eq_true ->%bool_decide_eq_true]%andb_true_iff.
        exists "", (String "010" ""). by auto.
  - intros (body & nl & -> & Hb & Hnl). induction body as [|c body IH].
    + by destruct Hnl as [-> | ->].
    + cbn [Py.all_chars] in Hb. apply andb_true_iff in Hb as [Hc Hb].
      rewrite app_cons. cbn [ident_tail]. rewrite Hc. by apply IH.
Qed.

(** X3. [escape_sqlite_table_name] returns the name as it is exactly when
    the name is a letter or underscore followed by letters, digits and
    underscores, with or without one newline at its end; any other name, the
    empty one too, comes back between square brackets with nothing in it
    escaped. *)
Theorem escape_sqlite_table_name_spec s :
  (escape_sqlite_table_name s = s ∨
   escape_sqlite_table_name s = "[" +:+ s +:+ "]") ∧
  (escape_sqlite_table_name s = s ↔
   ∃ c body nl,
     s = String c body +:+ nl ∧ ident_start c = true ∧
     Py.all_chars ident_char body = true ∧ (nl = "" ∨ nl = String "010" "")).
Proof.
  assert (Py.format "[{}]" [s] = "[" +:+ s +:+ "]") as Hf by reflexivity.
  assert ("[" +:+ s +:+ "]" ≠ s) as Hne.
  { intros E. apply (f_equal String.length) in E.
    rewrite !length_app_str in E. simpl in E. lia. }
  unfold escape_sqlite_table_name. rewrite Hf.
  destruct (boring_table_name s) eqn:Hb.
  - split; [by left|]. split; [intros _|done].
    destruct s as [|c r]; [done|]. cbn [boring_table_name] in Hb.
    apply andb_true_iff in Hb as [Hc (body & nl & -> & Hbody & Hnl)%ident_tail_spec].
    by exists c, body, nl.
  - split; [by right|]. split; [done|].
    intros (c & body & nl & -> & Hc & Hbody & Hnl). rewrite app_cons in Hb.
    cbn [boring_table_name] in Hb. rewrite Hc in Hb.
    assert (ident_tail (body +:+ nl) = true) as Ht
      by (apply ident_tail_spec; by exists body, nl).
    by rewrite Ht in Hb.
Qed.

(** ** More on the cursor codec *)

Lemma split_length s : length (Py.split "," s) = S (count_char "," s).
Proof.
  induction s as [|c s IH]; [done|]. cbn [Py.split count_char].
  destruct (decide (c = ","%char)).
  - simpl. by rewrite IH.
  - destruct (Py.split "," s); simpl in *; lia.
Qed.

(** X4. [compound_pks_from_path] gives one component more than the path has
    commas: never an empty list, and the empty path gives one empty
    component. *)
Theorem compound_pks_from_path_length path :
  length (compound_pks_from_path path) = S (count_char "," path) ∧
  compound_pks_from_path path ≠ [] ∧
  compound_pks_from_path "" = [""].
Proof.
  assert (length (compound_pks_from_path path) = S (count_char "," path)) as H.
  { unfold compound_pks_from_path. by rewrite length_fmap, split_length. }
  split; [done|]. split; [|done]. intros E. by rewrite E in H.
Qed.

Lemma count_char_app c s1 s2 :
  count_char c (s1 +:+ s2) = (count_char c s1 + count_char c s2)%nat.
Proof.
  induction s1 as [|d s1 IH]; [done|]. rewrite app_cons. simpl.
  rewrite IH. lia.
Qed.

Lemma count_char_no_comma s :
  Py.all_chars not_comma s = true → count_char "," s = 0%nat.
Proof.
  induction s as [|c s IH]; [done|]. simpl.
  intros [Hc Hs]%andb_true_iff. unfold not_comma in Hc.
  apply negb_true_iff, bool_decide_eq_false in Hc.
  rewrite decide_False by done. by rewrite IH.
Qed.

Lemma quote_plus_token_chars s :
  Py.all_chars token_char (Urllib.quote_plus s) = true.
Proof.
  induction s as [|c s IH]; [done|]. simpl. rewrite all_chars_app, IH.
  by destruct c as [[] [] [] [] [] [] [] []].
Qed.

Lemma join_token_chars bits :
  Forall (λ b, Py.all_chars token_char b = true) bits →
  Py.all_chars token_char (Py.join "," bits) = true.
Proof.
  induction 1 as [|b bits Hb _ IH]; [done|].
  destruct bits as [|b' bits]; [done|].
  change (Py.join "," (b :: b' :: bits))
    with (b +:+ "," +:+ Py.join "," (b' :: bits)).
  by rewrite !all_chars_app, Hb, IH.
Qed.

Lemma join_count_commas bits :
  Forall (λ b, Py.all_chars not_comma b = true) bits →
  count_char "," (Py.join "," bits) = (length bits - 1)%nat.
Proof.
  induction 1 as [|b bits Hb _ IH]; [done|].
  destruct bits as [|b' bits].
  - simpl. by apply count_char_no_comma.
  - change (Py.join "," (b :: b' :: bits))
      with (b +:+ "," +:+ Py.join "," (b' :: bits)).
    rewrite !count_char_app, IH, count_char_no_comma by done. simpl. lia.
Qed.

Lemma result_mapM_Ok_inv {A B} (f : A → result B) l ys :
  result_mapM f l = Ok ys → Forall2 (λ x y, f x = Ok y) l ys.
Proof.
  revert ys. induction l as [|x l IH]; intros ys H; simplify_eq/=.
  - constructor.
  - simpl_result. destruct (f x) as [y|] eqn:E; simplify_eq/=.
    destruct (result_mapM f l) as [ys'|]; simplify_eq.
    constructor; [done|]. by apply IH.
Qed.

(** X5. A cursor made by [path_from_row_pks] is safe to put in a URL: it
    holds only letters, digits, [_.-~], [+], [%] and commas, and when it is
    made from primary keys its commas are the ones between the components,
    one less than there are keys. *)
Theorem path_from_row_pks_token row pks use_rowid token :
  path_from_row_pks row pks use_rowid = Ok token →
  Py.all_chars token_char token = true ∧
  count_char "," token = (if use_rowid then 0 else length pks - 1)%nat.
Proof.
  unfold path_from_row_pks. destruct use_rowid.
  - simpl_result. destruct (row_get row "rowid") as [v|]; intros [= <-].
    split; [apply quote_plus_token_chars|].
    apply count_char_no_comma, quote_plus_no_comma.
  - simpl_result.
    destruct (result_mapM _ pks) as [bits|] eqn:E; intros [= <-].
    pose proof (result_mapM_length _ _ _ E) as Hlen.
    apply result_mapM_Ok_inv in E.
    assert (Forall (λ b, Py.all_chars token_char b = true ∧
                         Py.all_chars not_comma b = true) bits) as Hbits.
    { clear Hlen. induction E as [|pk b pks bits Hb _ IH]; constructor; [|done].
      destruct (row_get row pk); simplify_eq.
      split; [apply quote_plus_token_chars|apply quote_plus_no_comma]. }
    split.
    + apply join_token_chars. eapply Forall_impl; [exact Hbits|]. by intros ? [].
    + rewrite join_count_commas, Hlen; [done|].
      eapply Forall_impl; [exact Hbits|]. by intros ? [].
Qed.

Lemma path_from_row_pks_token_witness :
  let row := [("id", SqlInt 7); ("name", SqlText "a b,c")] in
  path_from_row_pks row ["id"; "name"] false = Ok "7,a+b%2Cc" ∧
  Py.all_chars token_char "7,a+b%2Cc" = true ∧
  count_char "," "7,a+b%2Cc" = (length ["id"; "name"] - 1)%nat.
Proof.
  cbv zeta. split; [reflexivity|].
  apply (path_from_row_pks_token
           [("id", SqlInt 7); ("name", SqlText "a b,c")] ["id"; "name"] false).
  reflexivity.
Defined.

(** ** Filter keys *)

Lemma drop_length_app s1 s2 : Py.drop (String.length s1) (s1 +:+ s2) = s2.
Proof. induction s1 as [|c s1 IH]; [by destruct s2|]. by rewrite app_cons. Qed.

Lemma rsplit_last_intro sep a b :
  sep ≠ "" →
  Py.contains sep (Py.drop 1 (sep +:+ b)) = false →
  Py.rsplit_last sep (a +:+ sep +:+ b) = Some (a, b).
Proof.
  intros Hsep Hb. induction a as [|c a IH].
  - rewrite app_empty_l. destruct sep as [|d sep]; [done|].
    rewrite app_cons in *. cbn [Py.drop] in Hb. cbn [Py.rsplit_last].
    rewrite (rsplit_last_absent _ _ Hb).
    rewrite <-app_cons, startswith_app.
    change (S (String.length sep)) with (String.length (String d sep)).
    by rewrite drop_length_app.
  - rewrite app_cons. cbn [Py.rsplit_last]. by rewrite IH.
Qed.







(** ** More on the SQL validator *)

Lemma lower_char_idemp c : Py.lower_char (Py.lower_char c) = Py.lower_char c.
Proof. by destruct c as [[] [] [] [] [] [] [] []]. Qed.


Lemma lower_idemp s : Py.lower (Py.lower s) = Py.lower s.
Proof. induction s as [|c s IH]; [done|]. simpl. by rewrite lower_char_idemp, IH. Qed.







(** ** More on the slug resolver *)

Lemma resolve_db_name_candidate ds candidate hash kwargs info :
  metadata ds !! candidate = Some info →
  Py.contains "-" hash = false →
  resolve_db_name ds (candidate +:+ "-" +:+ hash) kwargs =
    let expected := String.substring 0 7 (info_hash info) in
    if decide (hash = expected) then Ok (candidate, expected, None)
    else Ok (candidate, expected, Some (canonical_path candidate expected kwargs)).
Proof.
  intros Hinfo Hhash. unfold resolve_db_name. cbv zeta.
  assert (Py.contains "-" (candidate +:+ "-" +:+ hash) = true) as ->
    by (apply contains_app_r, contains_startswith, startswith_app).
  unfold Py.rsplit1. rewrite rsplit_last_intro by done.
  cbn [Py.unpack2 mbind result_bind].
  rewrite decide_False.
  2:{ intros Hn. apply Hn, elem_of_dom. by eexists. }
  unfold mbind, mret, result_bind, result_ret. cbv beta iota. rewrite Hinfo.
  pose proof (canonical_path_eq candidate
                (String.substring 0 7 (info_hash info)) kwargs) as Ht.
  cbv zeta in Ht. rewrite Ht.
  destruct (decide (hash = _)) as [->|Hne].
  - by rewrite decide_False by (by intros []).
  - by rewrite decide_True by congruence.
Qed.

(** X9. The canonical slug [<name>-<first seven characters of the digest>]
    of a database of the catalog is never redirected: [get] hands the
    request to the handler with that name and that prefix, also when the
    name has hyphens of its own.  So the target of a redirect is not
    redirected again. *)
Theorem canonical_slug_is_dispatched ds D E
    (handler : Request → string → string → gmap string string →
               M (Response D E))
    request name info kwargs w :
  metadata ds !! name = Some info →
  Py.contains "-" (String.substring 0 7 (info_hash info)) = false →
  let expected := String.substring 0 7 (info_hash info) in
  resolve_db_name ds (name +:+ "-" +:+ expected) kwargs =
    Ok (name, expected, None) ∧
  get ds handler request (name +:+ "-" +:+ expected) kwargs w =
    handler request name expected kwargs w.
Proof.
  intros Hinfo Hhex expected.
  assert (resolve_db_name ds (name +:+ "-" +:+ expected) kwargs =
            Ok (name, expected, None)) as Hr.
  { rewrite (resolve_db_name_candidate ds name expected kwargs info) by done.
    cbv zeta. by rewrite decide_True. }
  split; [done|]. unfold get. by rewrite Hr.
Qed.

Lemma canonical_slug_is_dispatched_witness :
  let handler := TableView_view_get Fixture.conn_execute Fixture.ds in
  let kwargs : gmap string string := {["table" := "pets"]} in
  resolve_db_name Fixture.ds "fixtures-a1b2c3d" kwargs =
    Ok ("fixtures", "a1b2c3d", None) ∧
  get Fixture.ds handler Fixture.pets_request "fixtures-a1b2c3d" kwargs
      Fixture.world =
    handler Fixture.pets_request "fixtures" "a1b2c3d" kwargs Fixture.world.
Proof.
  cbv zeta.
  apply (canonical_slug_is_dispatched Fixture.ds _ _
           (TableView_view_get Fixture.conn_execute Fixture.ds)
           Fixture.pets_request "fixtures"
           {| info_hash := Fixture.digest; info_file := "fixtures.db";
              info_tables := {["pets" := 3]} |}
           {["table" := "pets"]} Fixture.world); reflexivity.
Defined.

(** X10. A slug [<x>-<y>] whose [<x>] is a database of the catalog always
    resolves to [<x>], with [<y>] read as its hash: a database that is itself
    named [<x>-<y>] is not found under its bare name, and the request is
    redirected to [<x>] unless [<y>] happens to be the digest prefix of
    [<x>]. *)
Theorem hyphenated_name_is_shadowed ds x y info kwargs :
  metadata ds !! x = Some info →
  Py.contains "-" y = false →
  ∃ target,
    resolve_db_name ds (x +:+ "-" +:+ y) kwargs =
      Ok (x, String.substring 0 7 (info_hash info), target) ∧
    (target = None ↔ y = String.substring 0 7 (info_hash info)).
Proof.
  intros Hinfo Hy.
  rewrite (resolve_db_name_candidate ds x y kwargs info) by done. cbv zeta.
  destruct (decide (y = _)) as [->|Hne]; eexists; (split; [done|]); done.
Qed.

Lemma hyphenated_name_is_shadowed_witness :
  ∃ target,
    resolve_db_name Fixture.ds ("fixtures" +:+ "-" +:+ "2017") ∅ =
      Ok ("fixtures", "a1b2c3d", target) ∧
    (target = None ↔ "2017" = "a1b2c3d").
Proof.
  apply (hyphenated_name_is_shadowed Fixture.ds "fixtures" "2017"
           {| info_hash := Fixture.digest; info_file := "fixtures.db";
              info_tables := {["pets" := 3]} |} ∅); reflexivity.
Defined.

(** ** More on [execute] *)



(** X12. Whatever the outcome, [execute] leaves the clock and the
    connections of all other databases as they were, and a connection that
    was open stays open on the same file. *)
Theorem execute_frame conn_execute ds db_name sql params w w' r :
  execute conn_execute ds db_name sql params w = (w', r) →
  clock w' = clock w ∧
  (∀ other, other ≠ db_name →
     connections w' !! other = connections w !! other) ∧
  (∀ conn, connections w !! db_name = Some conn →
     conn_file <$> connections w' !! db_name = Some (conn_file conn)).
Proof.
  unfold execute. unfold_M.
  destruct (connections w !! db_name) as [conn|] eqn:Hc.
  - rewrite lookup_alter_eq, Hc. cbn [fmap option_fmap option_map].
    destruct (conn_execute _ sql _) eqn:E; intros [= <- <-];
      cbn [clock connections];
      (split; [done|]); (split; [intros other Ho; by rewrite !lookup_alter_ne|]);
      intros conn' [= <-]; by rewrite !lookup_alter_eq, Hc.
  - destruct (metadata ds !! db_name) as [info|] eqn:Hi.
    + cbn [clock connections]. rewrite lookup_alter_eq, lookup_insert_eq.
      cbn [fmap option_fmap option_map].
      destruct (conn_execute _ sql _) eqn:E; intros [= <- <-];
        cbn [clock connections];
        (split; [done|]);
        (split; [intros other Ho; by rewrite !lookup_alter_ne, lookup_insert_ne|]);
        done.
    + intros [= <- <-]. done.
Qed.

Lemma execute_frame_witness :
  let w :=
    {| clock := 5;
       connections :=
         {["other" := {| conn_file := "file:other.db?immutable=1";
                         conn_progress_handler := None |}]} |} in
  let r := execute Fixture.conn_execute Fixture.ds "fixtures"
             "select * from missing" None w in
  clock r.1 = 5 ∧
  (∀ other, other ≠ "fixtures" →
     connections r.1 !! other = connections w !! other).
Proof.
  cbv zeta.
  destruct (execute_frame Fixture.conn_execute Fixture.ds "fixtures"
              "select * from missing" None
              {| clock := 5;
                 connections :=
                   {["other" := {| conn_file := "file:other.db?immutable=1";
                                   conn_progress_handler := None |}]} |}
              _ _ (surjective_pairing _)) as (Hc & Ho & _).
  split; [exact Hc|exact Ho].
Defined.



(** ** More on [view_get] *)

Lemma try_sql_errors_raise {A B} (data : M A) (k : A → M B)
    (handler : string → M B) w w' e :
  data w = (w', Raise e) →
  try_sql_errors (data ≫= k) handler w =
    match sql_error_message e with
    | Some msg => handler msg w'
    | None => (w', Raise e)
    end.
Proof.
  intros Hd. unfold try_sql_errors, mbind, M_bind. rewrite Hd. by destruct e.
Qed.

(** X14. When [data] raises [InvalidSql] or [sqlite3.OperationalError],
    [view_get] answers with status 400 and the error payload (the template
    being [error.html]); with cache headers on, this error response carries
    the one-year [Cache-Control] header like any other, and it has the CORS
    header exactly when it is JSON.  Any other exception of [data] leaves
    [view_get] unanswered. *)
Theorem view_get_on_error ds D E template (data : M (D * E))
    request name hash as_json w w' e :
  data w = (w', Raise e) →
  match sql_error_message e with
  | Some msg =>
      ∃ r, view_get ds template data request name hash as_json w = (w', Ok r) ∧
           status r = 400 ∧
           body r = error_body request as_json msg name hash ∧
           headers r !! "Cache-Control" =
             (if cache_headers ds then Some "max-age=31536000" else None) ∧
           headers r !! "Access-Control-Allow-Origin" =
             (if decide (default "" as_json = "") then None else Some "*")
  | None =>
      view_get ds template data request name hash as_json w = (w', Raise e)
  end.
Proof.
  intros Hd.
  pose proof (λ B k h, try_sql_errors_raise (B := B) data k h w w' e Hd) as Ht.
  destruct (sql_error_message e) as [msg|].
  - unfold view_get, error_body. cbv zeta.
    unfold mbind at 1. unfold M_bind at 1. rewrite Ht.
    unfold mret, M_ret; cbv beta iota.
    destruct (decide (default "" as_json = "")), (cache_headers ds);
      eexists; (split; [reflexivity|]); cbn [status body headers];
      repeat split; reflexivity.
  - unfold view_get. cbv zeta.
    unfold mbind at 1. unfold M_bind at 1. by rewrite Ht.
Qed.

Lemma view_get_on_error_witness :
  let request :=
    {| path := "/fixtures-a1b2c3d";
       query_string := "sql=drop+table+pets";
       args := [("sql", ["drop table pets"])] |} in
  let data := custom_sql Fixture.conn_execute Fixture.ds request
                "fixtures" "a1b2c3d" in
  ∃ r, view_get Fixture.ds "database.html" data request "fixtures" "a1b2c3d"
         (Some ".json") Fixture.world = (Fixture.world, Ok r) ∧
       status r = 400 ∧
       body r = error_body request (Some ".json")
                  "Statement must begin with SELECT" "fixtures" "a1b2c3d" ∧
       headers r !! "Cache-Control" = Some "max-age=31536000" ∧
       headers r !! "Access-Control-Allow-Origin" = Some "*".
Proof.
  cbv zeta.
  apply (view_get_on_error Fixture.ds _ _ "database.html"
           (custom_sql Fixture.conn_execute Fixture.ds
              {| path := "/fixtures-a1b2c3d";
                 query_string := "sql=drop+table+pets";
                 args := [("sql", ["drop table pets"])] |}
              "fixtures" "a1b2c3d")
           {| path := "/fixtures-a1b2c3d";
              query_string := "sql=drop+table+pets";
              args := [("sql", ["drop table pets"])] |}
           "fixtures" "a1b2c3d" (Some ".json") Fixture.world Fixture.world
           (InvalidSql "Statement must begin with SELECT")).
  reflexivity.
Defined.

(** ** More on custom queries *)

Lemma raw_args_Ok request params :
  raw_args request = Ok params →
  Forall2 (λ kv p, ∃ tail, kv = (p.1, p.2 :: tail)) (args request) params.
Proof.
  unfold raw_args. intros H%result_mapM_Ok_inv.
  eapply Forall2_impl; [exact H|]. intros [k vs] [k' v]. simpl_result.
  unfold first_value. destruct vs as [|v0 tail]; [done|].
  intros [= <- <-]. by exists tail.
Qed.

Lemma raw_args_keys request params :
  raw_args request = Ok params → params.*1 = (args request).*1.
Proof.
  intros H%raw_args_Ok.
  induction H as [|kv p items ps [tail ->] _ IH]; [done|].
  by rewrite !fmap_cons, IH.
Qed.

Lemma raw_args_elem request params key v :
  raw_args request = Ok params →
  (key, v) ∈ params ↔ ∃ tail, (key, v :: tail) ∈ args request.
Proof.
  intros H%raw_args_Ok. split.
  - intros [i Hi]%list_elem_of_lookup.
    destruct (Forall2_lookup_r _ _ _ _ _ H Hi) as (kv & Hkv & tail & ->).
    exists tail. by eapply list_elem_of_lookup_2.
  - intros [tail [i Hi]%list_elem_of_lookup].
    destruct (Forall2_lookup_l _ _ _ _ _ H Hi) as ([k' v'] & Hp & tail' & E).
    simpl in E. simplify_eq. by eapply list_elem_of_lookup_2.
Qed.

(** X15. Of the arguments of a custom query, [sql] is the statement and is
    never bound as a parameter; every other argument is bound under its own
    name with its first value, as text, and nothing else is bound.  The
    statement that runs is the value of [sql] as it was given. *)
Theorem custom_sql_binds_arguments conn_execute ds request name hash
    w w' d e :
  NoDup (args request).*1 →
  custom_sql conn_execute ds request name hash w = (w', Ok (d, e)) →
  (∃ tail, ("sql", qd_query_sql d :: tail) ∈ args request) ∧
  qd_query_params d !! "sql" = None ∧
  (∀ key v tail, (key, v :: tail) ∈ args request → key ≠ "sql" →
     qd_query_params d !! key = Some (PyStr v)) ∧
  (∀ key, key ∉ (args request).*1 → qd_query_params d !! key = None) ∧
  ∃ conn cursor,
    conn_execute conn (qd_query_sql d) (qd_query_params d) = Ok cursor ∧
    qd_rows d = cursor_rows cursor.
Proof.
  intros Hnd H. unfold custom_sql in H.
  apply M_bind_Ok in H as (params & w1 & [Hraw _]%lift_Ok & H).
  apply M_bind_Ok in H as ([sql rest] & w2 & [Hpop _]%lift_Ok & H).
  apply M_bind_Ok in H as (? & w3 & _ & H).
  apply M_bind_Ok in H as (cursor & w4 & [conn Hconn]%execute_Ok & H).
  apply M_ret_Ok in H as [[= -> ->] _].
  cbn [qd_query_sql qd_query_params qd_rows]. cbn [default from_option] in Hconn.
  unfold pop_sql in Hpop.
  destruct (list_find _ params) as [[i [k sql']]|] eqn:Hfind; [|done].
  simplify_eq. apply list_find_Some in Hfind as (Hi & Hk & _).
  simpl in Hk. subst k. apply list_elem_of_lookup_2 in Hi.
  pose proof (raw_args_keys _ _ Hraw) as Hkeys.
  assert (NoDup params.*1) as Hnd' by by rewrite Hkeys.
  set (l := reverse (prod_map id PyStr <$> filter (λ kv, kv.1 ≠ "sql") params)).
  assert (∀ key p, (key, p) ∈ l ↔
            ∃ v, p = PyStr v ∧ key ≠ "sql" ∧ (key, v) ∈ params) as Hl.
  { intros key p. unfold l. rewrite elem_of_reverse, list_elem_of_fmap. split.
    - intros ([k v] & [= -> ->] & [Hne Hin]%list_elem_of_filter). by exists v.
    - intros (v & -> & Hne & Hin). exists (key, v). split; [done|].
      by apply list_elem_of_filter. }
  assert (NoDup l.*1) as Hndl.
  { unfold l. rewrite fmap_reverse, reverse_Permutation.
    rewrite <-list_fmap_compose.
    assert (fst ∘ prod_map id PyStr = (fst : string * string → string)) as ->
      by done.
    clear -Hnd'. induction params as [|[k v] params IH]; [constructor|].
    rewrite fmap_cons in Hnd'. apply NoDup_cons in Hnd' as [Hk Hnd'].
    rewrite filter_cons. case_decide; [|by apply IH].
    rewrite fmap_cons. apply NoDup_cons. split; [|by apply IH].
    intros ([k' v'] & E & [_ Hin]%list_elem_of_filter)%list_elem_of_fmap.
    simpl in E. subst k'. apply Hk.
    by apply (list_elem_of_fmap_2 fst _ (k, v')). }
  split; [by apply (raw_args_elem _ _ _ _ Hraw)|]. split; [|split; [|split]].
  - apply not_elem_of_list_to_map_1.
    intros ([k p] & E & (v & _ & Hne & _)%Hl)%list_elem_of_fmap. done.
  - intros key v tail Hin Hne. apply elem_of_list_to_map_1; [done|].
    apply Hl. exists v. do 2 (split; [done|]).
    apply (raw_args_elem _ _ _ _ Hraw). by exists tail.
  - intros key Hkey. apply not_elem_of_list_to_map_1.
    intros ([k p] & E & (v & _ & _ & Hin)%Hl)%list_elem_of_fmap.
    simpl in E. subst k. apply Hkey. rewrite <-Hkeys.
    by apply (list_elem_of_fmap_2 fst _ (key, v)).
  - by exists conn, cursor.
Qed.

Lemma custom_sql_binds_arguments_witness :
  let d := {| qd_database := "fixtures";
              qd_rows := [[("1", SqlInt 1)]];
              qd_columns := ["1"];
              qd_query_sql := "select 1";
              qd_query_params := {["x" := PyStr "1"]} |} in
  custom_sql Fixture.conn_execute Fixture.ds Fixture.sql_request
    "fixtures" "a1b2c3d" Fixture.world =
    (Fixture.connected None,
     Ok (d, {| qe_database_hash := "a1b2c3d"; qe_custom_sql := true |})) ∧
  qd_query_params d !! "sql" = None ∧
  (∀ key v tail, (key, v :: tail) ∈ args Fixture.sql_request → key ≠ "sql" →
     qd_query_params d !! key = Some (PyStr v)).
Proof.
  cbv zeta.
  assert (custom_sql Fixture.conn_execute Fixture.ds Fixture.sql_request
            "fixtures" "a1b2c3d" Fixture.world =
          (Fixture.connected None,
           Ok ({| qd_database := "fixtures";
                  qd_rows := [[("1", SqlInt 1)]];
                  qd_columns := ["1"];
                  qd_query_sql := "select 1";
                  qd_query_params := {["x" := PyStr "1"]} |},
               {| qe_database_hash := "a1b2c3d"; qe_custom_sql := true |})))
    as H by (vm_compute; reflexivity).
  assert (NoDup (args Fixture.sql_request).*1) as Hnd
    by (apply (bool_decide_eq_true_1 (NoDup _)); vm_compute; reflexivity).
  split; [exact H|].
  destruct (custom_sql_binds_arguments _ _ _ _ _ _ _ _ _ Hnd H)
    as (_ & Hsql & Hbound & _).
  split; [exact Hsql|exact Hbound].
Defined.

(** ** The table view of a view *)

Lemma apply_after_no_keys after acc :
  apply_after after false [] acc = acc.
Proof.
  unfold apply_after. destruct acc as [clauses params].
  destruct after as [after|]; [|done].
  destruct (decide (after = "")); [done|].
  rewrite decide_False; [done|].
  unfold compound_pks_from_path. rewrite length_fmap, split_length. done.
Qed.

Lemma table_sql_eq select table where_clause order_by n :
  Py.format ("select {} from " +:+ Py.dquote +:+ "{}" +:+ Py.dquote +:+
             " {}{}limit {}")
    [select; table; where_clause; order_by; n] =
  "select " +:+ select +:+ " from " +:+ Py.dquote +:+ table +:+ Py.dquote +:+
  " " +:+ where_clause +:+ order_by +:+ "limit " +:+ n.
Proof.
  transitivity
    ("select " +:+ select +:+ " from " +:+ Py.dquote +:+ table +:+
     Py.dquote +:+ " " +:+ where_clause +:+ order_by +:+ "limit " +:+ n +:+ "");
    [reflexivity|].
  by rewrite app_empty_r.
Qed.

Lemma where_clause_eq x : Py.format "where {} " [x] = "where " +:+ x +:+ " ".
Proof. reflexivity. Qed.

(** X16. On a view without key columns the [_after] argument has no effect:
    the statement has no [order by] and no cursor condition, its clauses
    and parameters being those of the filters alone, and the cursor given
    out for the next page is always the empty string. *)
Theorem view_has_no_cursor conn_execute ds request name hash table w w' d e :
  TableView_data conn_execute ds request name hash table w = (w', Ok (d, e)) →
  td_is_view d = true →
  td_primary_keys d = [] →
  te_use_rowid e = false ∧
  (∀ token, td_after d = Some token → token = "") ∧
  ∃ special other clauses,
    partition_args (args request) (∅, ∅) = Ok (special, other) ∧
    (if decide (other = ∅) then Ok ([], ∅) else build_where_clauses other) =
      Ok (clauses, td_query_params d) ∧
    td_query_sql d =
      "select * from " +:+ Py.dquote +:+ td_table d +:+ Py.dquote +:+ " " +:+
      (if decide (clauses = []) then ""
       else "where " +:+ Py.join " and " clauses +:+ " ") +:+
      "limit " +:+ pretty (page_size ds + 1).
Proof.
  intros H Hview Hpks. unfold TableView_data in H. cbv zeta in H.
  apply M_bind_Ok in H as (pks & w1 & _ & H).
  apply M_bind_Ok in H as (count & w2 & _ & H).
  apply M_bind_Ok in H as (is_view & w3 & _ & H).
  apply M_bind_Ok in H as ([vd tdef] & w4 & _ & H).
  destruct (bool_decide (pks = []) && negb is_view) eqn:Hu.
  all: apply M_bind_Ok in H as ([special other] & w5 & [Hpart _]%lift_Ok & H).
  all: apply M_bind_Ok in H as ([clauses params] & w6 & [Hbuild _]%lift_Ok & H).
  all: destruct (apply_after _ _ _ _) as [clauses0 params0] eqn:Hafter.
  all: apply M_bind_Ok in H as (cursor & w7 & _ & H).
  all: apply M_bind_Ok in H as (info & w8 & _ & H).
  all: apply M_bind_Ok in H as ([after link] & w9 & [Hlink _]%lift_Ok & H).
  all: rewrite table_sql_eq, where_clause_eq in H.
  all: apply M_ret_Ok in H as [[= -> ->] _].
  all: cbn [td_is_view td_primary_keys] in Hview, Hpks.
  1: by subst is_view pks.
  subst is_view pks. clear Hu.
  cbn [td_after td_query_sql td_query_params td_table te_use_rowid].
  rewrite apply_after_no_keys in Hafter. simplify_eq.
  split; [done|]. split.
  - intros token ->. revert Hlink.
    destruct (decide (page_size ds < _)); [|done].
    simpl_result. destruct (second_to_last _); [|done].
    cbn [path_from_row_pks result_mapM Py.join]. simpl_result.
    destruct (path_with_added_args _ _); [|done]. by intros [= <- _].
  - exists special, other, clauses0. split; [done|]. split; [done|].
    destruct (decide ("" = "")) as [_|]; [|done]. by rewrite app_empty_l.
Qed.

Lemma view_has_no_cursor_witness :
  let request := {| path := "/fixtures-a1b2c3d/pets_view";
                    query_string := "_after=2";
                    args := [("_after", ["2"])] |} in
  let d := {| td_database := "fixtures";
              td_table := "pets_view";
              td_is_view := true;
              td_view_definition :=
                Some (SqlText "CREATE VIEW pets_view AS select * from pets");
              td_table_definition := None;
              td_rows := [[("id", SqlInt 1); ("name", SqlText "cat")];
                          [("id", SqlInt 2); ("name", SqlText "dog")]];
              td_table_rows := None;
              td_columns := ["id"; "name"];
              td_primary_keys := [];
              td_query_sql :=
                "select * from " +:+ Py.dquote +:+ "pets_view" +:+
                Py.dquote +:+ " limit 3";
              td_query_params := ∅;
              td_after := Some "" |} in
  let e := {| te_database_hash := "a1b2c3d";
              te_use_rowid := false;
              te_display_columns := ["id"; "name"];
              te_after_link := Some "/fixtures-a1b2c3d/pets_view?_after=" |} in
  TableView_data Fixture_view_engine Fixture.ds request
    "fixtures" "a1b2c3d" "pets_view" Fixture.world =
    (Fixture.connected None, Ok (d, e)) ∧
  te_use_rowid e = false ∧
  ∀ token, td_after d = Some token → token = "".
Proof.
  intros request d e.
  assert (TableView_data Fixture_view_engine Fixture.ds request
            "fixtures" "a1b2c3d" "pets_view" Fixture.world =
          (Fixture.connected None, Ok (d, e))) as H
    by (vm_compute; reflexivity).
  split; [exact H|].
  destruct (view_has_no_cursor _ _ _ _ _ _ _ _ _ _ H eq_refl eq_refl)
    as (Hu & Ha & _).
  split; [exact Hu|exact Ha].
Defined.

(** ** The index *)

Lemma str_leb_total a b : str_leb a b = true ∨ str_leb b a = true.
Proof.
  unfold str_leb. rewrite !bool_decide_eq_true. apply (total String.le).
Qed.

Lemma str_leb_trans a b c :
  str_leb a b = true → str_leb b c = true → str_leb a c = true.
Proof. unfold str_leb. rewrite !bool_decide_eq_true. by etrans. Qed.

Lemma sorted_by_key_strict {A} (key : A → string) (l : list A) :
  NoDup (key <$> l) →
  StronglySorted str_lt (key <$> py_sorted (λ x y, str_leb (key x) (key y)) l).
Proof.
  intros Hnd.
  set (leb := λ x y, str_leb (key x) (key y)).
  assert (NoDup (key <$> py_sorted leb l)) as Hnd' by by rewrite py_sorted_perm.
  pose proof (py_sorted_sorted leb
                (λ x y, str_leb_total (key x) (key y))
                (λ x y z, str_leb_trans (key x) (key y) (key z)) l) as Hs.
  induction Hs as [|x l' Hl IH Hx]; [constructor|].
  rewrite fmap_cons in Hnd' |- *. apply NoDup_cons in Hnd' as [Hx' Hnd'].
  constructor; [by apply IH|].
  apply Forall_fmap, Forall_forall. intros y Hy. simpl.
  rewrite Forall_forall in Hx. specialize (Hx y Hy). unfold leb in Hx.
  apply str_ltb_spec. split.
  - unfold str_leb in Hx. by apply bool_decide_eq_true in Hx.
  - intros E. apply Hx'. rewrite E. by apply list_elem_of_fmap_2.
Qed.

(** X17. The index lists the databases in the order of their names, each
    database of the catalog once and nothing else. *)
Theorem index_lists_catalog ds dict_items :
  StronglySorted str_lt (ie_name <$> IndexView_databases ds dict_items) ∧
  ∀ e, e ∈ IndexView_databases ds dict_items ↔
       ∃ name info, metadata ds !! name = Some info ∧
                    e = index_database dict_items name info.
Proof.
  unfold IndexView_databases. split.
  - rewrite <-list_fmap_compose.
    apply (sorted_by_key_strict fst), NoDup_fst_map_to_list.
  - intros e. rewrite list_elem_of_fmap. split.
    + intros ([name info] & -> & Hin). rewrite py_sorted_perm in Hin.
      apply elem_of_map_to_list in Hin. by exists name, info.
    + intros (name & info & Hin & ->). exists (name, info). split; [done|].
      rewrite py_sorted_perm. by apply elem_of_map_to_list.
Qed.

(** X18. The path the index gives for a database is its canonical slug:
    a request for it is resolved to that database without a redirect (the
    digest being hexadecimal, its prefix has no hyphen). *)
Theorem index_paths_need_no_redirect ds dict_items e :
  (∀ name info, metadata ds !! name = Some info →
     Py.contains "-" (String.substring 0 7 (info_hash info)) = false) →
  e ∈ IndexView_databases ds dict_items →
  resolve_db_name ds (ie_path e) ∅ =
    Ok (ie_name e, String.substring 0 7 (ie_hash e), None).
Proof.
  intros Hhex Hin. unfold IndexView_databases in Hin.
  apply list_elem_of_fmap in Hin as ([name info] & -> & Hin).
  rewrite py_sorted_perm in Hin. apply elem_of_map_to_list in Hin.
  cbn [index_database ie_path ie_name ie_hash fst snd].
  assert (Py.format "{}-{}" [name; String.substring 0 7 (info_hash info)] =
          name +:+ "-" +:+ String.substring 0 7 (info_hash info)) as ->.
  { cbn [Py.format]. by rewrite app_empty_r. }
  rewrite (resolve_db_name_candidate ds name _ ∅ info) by eauto.
  cbv zeta. by rewrite decide_True.
Qed.

Lemma index_paths_need_no_redirect_witness :
  ie_path (index_database map_to_list "zoo" Fixture_zoo) = "zoo-0f1e2d3" ∧
  resolve_db_name Fixture_catalog "zoo-0f1e2d3" ∅ =
    Ok ("zoo", "0f1e2d3", None).
Proof.
  split; [reflexivity|].
  apply (index_paths_need_no_redirect Fixture_catalog map_to_list
           (index_database map_to_list "zoo" Fixture_zoo)).
  - intros name info H. unfold Fixture_catalog in H. cbn [metadata] in H.
    apply lookup_insert_Some in H as [[_ <-]|[_ H]]; [reflexivity|].
    apply lookup_singleton_Some in H as [_ <-]. reflexivity.
  - apply list_elem_of_fmap. exists ("zoo", Fixture_zoo).
    split; [reflexivity|]. rewrite py_sorted_perm.
    apply elem_of_map_to_list. reflexivity.
Defined.

Lemma py_sum_from xs a : foldl Z.add a xs = a + foldl Z.add 0 xs.
Proof.
  revert a. induction xs as [|x xs IH]; intros a; simpl; [lia|].
  rewrite (IH (a + x)), (IH (0 + x)). lia.
Qed.

Lemma py_sum_cons x xs : py_sum (x :: xs) = x + py_sum xs.
Proof. unfold py_sum. simpl. by rewrite py_sum_from. Qed.

Lemma py_sum_perm xs ys : xs ≡ₚ ys → py_sum xs = py_sum ys.
Proof.
  induction 1 as [|x xs ys _ IH|x y xs|xs ys zs _ IH1 _ IH2];
    rewrite ?py_sum_cons; try done; lia.
Qed.

Lemma StronglySorted_reverse {A} (R : relation A) l :
  StronglySorted R l → StronglySorted (flip R) (reverse l).
Proof.
  induction 1 as [|x l Hl IH Hx]; [constructor|].
  rewrite reverse_cons. apply StronglySorted_app_2; [|done|by repeat constructor].
  intros y z Hy Hz%list_elem_of_singleton. subst z.
  rewrite elem_of_reverse in Hy. rewrite Forall_forall in Hx. by apply Hx.
Qed.

Lemma StronglySorted_mono {A} (R1 R2 : relation A) l :
  (∀ x y, R1 x y → R2 x y) → StronglySorted R1 l → StronglySorted R2 l.
Proof.
  intros HR. induction 1 as [|x l Hl IH Hx]; constructor; [done|].
  eapply Forall_impl; [exact Hx|]. intros y. apply HR.
Qed.

Lemma py_sorted_reverse_perm {A} (leb : A → A → bool) l :
  py_sorted_reverse leb l ≡ₚ l.
Proof.
  unfold py_sorted_reverse. by rewrite reverse_Permutation, py_sorted_perm,
    reverse_Permutation.
Qed.

Lemma py_sorted_reverse_sorted (items : list (string * Z)) :
  StronglySorted (λ p q, q.2 ≤ p.2)
    (py_sorted_reverse (λ p q, p.2 <=? q.2) items).
Proof.
  unfold py_sorted_reverse.
  apply (StronglySorted_reverse (λ p q : string * Z, p.2 ≤ q.2)).
  eapply StronglySorted_mono; [|apply py_sorted_sorted].
  - intros p q H. by apply Z.leb_le.
  - intros p q. rewrite !Z.leb_le. lia.
  - intros p q r. rewrite !Z.leb_le. lia.
Qed.

(** X19. Of the tables of a database the index shows the five with the
    most rows, largest first: at most five, each one a table of the catalog
    entry with its row count, and no table left out has more rows than one
    that is shown.  The count, the [more] flag and the sum of rows are those
    of all the tables, in whatever order the dictionary holds them. *)
Theorem index_tables_truncated_top dict_items name info :
  dict_items (info_tables info) ≡ₚ map_to_list (info_tables info) →
  let e := index_database dict_items name info in
  let tables := info_tables info in
  ie_tables_count e = size tables ∧
  (ie_tables_more e = true ↔ (5 < size tables)%nat) ∧
  ie_table_rows e = py_sum (map_to_list tables).*2 ∧
  length (ie_tables_truncated e) = (5 `min` size tables)%nat ∧
  StronglySorted (λ p q, q.2 ≤ p.2) (ie_tables_truncated e) ∧
  (∀ t n, (t, n) ∈ ie_tables_truncated e → tables !! t = Some n) ∧
  (∀ t n, tables !! t = Some n → (t, n) ∉ ie_tables_truncated e →
     ∀ p, p ∈ ie_tables_truncated e → n ≤ p.2).
Proof.
  intros Hperm e tables. subst e tables.
  cbn [index_database ie_tables_count ie_tables_more ie_table_rows
       ie_tables_truncated].
  set (items := dict_items (info_tables info)) in *.
  set (sorted := py_sorted_reverse _ items).
  assert (length items = size (info_tables info)) as Hlen
    by by rewrite Hperm, length_map_to_list.
  assert (sorted ≡ₚ map_to_list (info_tables info)) as Hs
    by by (unfold sorted; rewrite py_sorted_reverse_perm).
  pose proof (py_sorted_reverse_sorted items) as Hsorted. fold sorted in Hsorted.
  rewrite <-(take_drop 5 sorted) in Hsorted.
  split; [done|]. split; [by rewrite bool_decide_eq_true, Hlen|].
  split; [by apply py_sum_perm, fmap_Permutation|].
  split; [by rewrite length_take, Hs, length_map_to_list|].
  split; [by eapply StronglySorted_app_1_l|]. split.
  - intros t n (i & Hin%list_elem_of_lookup_2 & _)%elem_of_take.
    rewrite Hs in Hin. by apply elem_of_map_to_list.
  - intros t n Hin%elem_of_map_to_list Hout p Hp.
    rewrite <-Hs, <-(take_drop 5 sorted) in Hin.
    apply elem_of_app in Hin as [Hin|Hin]; [done|].
    apply (StronglySorted_app_1_elem_of _ _ _ p (t, n) Hsorted Hp Hin).
Qed.

Lemma index_tables_truncated_top_witness :
  let e := index_database map_to_list "zoo" Fixture_zoo in
  ie_tables_truncated e =
    [("ants", 900); ("bees", 40); ("dogs", 40); ("fish", 12); ("cats", 7)] ∧
  ie_tables_count e = 6%nat ∧
  ie_tables_more e = true ∧
  ie_table_rows e = 1000 ∧
  StronglySorted (λ p q, q.2 ≤ p.2) (ie_tables_truncated e) ∧
  (∀ t n, info_tables Fixture_zoo !! t = Some n →
     (t, n) ∉ ie_tables_truncated e →
     ∀ p, p ∈ ie_tables_truncated e → n ≤ p.2).
Proof.
  cbv zeta. do 4 (split; [vm_compute; reflexivity|]).
  destruct (index_tables_truncated_top map_to_list "zoo" Fixture_zoo)
    as (_ & _ & _ & _ & Hs & _ & Htop); [reflexivity|].
  split; [exact Hs|exact Htop].
Defined.

(** ** The database view *)

Lemma M_mapM_Ok {A B} (f : A → M B) l w w' ys :
  M_mapM f l w = (w', Ok ys) →
  Forall2 (λ x y, ∃ w1 w2, f x w1 = (w2, Ok y)) l ys.
Proof.
  revert w w' ys. induction l as [|x l IH]; intros w w' ys H.
  - apply M_ret_Ok in H as [-> _]. constructor.
  - cbn [M_mapM] in H.
    apply M_bind_Ok in H as (y & w1 & Hy & H).
    apply M_bind_Ok in H as (ys' & w2 & Hys & H).
    apply M_ret_Ok in H as [-> _]. constructor; [by eauto|by eapply IH].
Qed.

Lemma table_summary_Ok conn_execute ds name item w w' t :
  table_summary conn_execute ds name item w = (w', Ok t) →
  ts_name t = item.1 ∧ ts_table_rows t = item.2 ∧
  ∃ conn cursor,
    conn_execute conn ("PRAGMA table_info([" +:+ item.1 +:+ "]);") ∅ =
      Ok cursor ∧
    result_mapM (λ r, row_at r 1) (cursor_rows cursor) = Ok (ts_columns t).
Proof.
  destruct item as [table_name table_rows]. unfold table_summary.
  intros H. apply M_bind_Ok in H as (cursor & w1 & Hx & H).
  apply M_bind_Ok in H as (columns & w2 & [Hc _]%lift_Ok & H).
  apply M_ret_Ok in H as [-> _]. apply execute_Ok in Hx as [conn Hconn].
  do 2 (split; [done|]). by exists conn, cursor.
Qed.

(** X20. When [DatabaseView.data] lists the tables, the list is in the
    order of the table names and holds each table of the catalog entry once,
    with the row count of the catalog, whatever order the dictionary has;
    the columns of each entry are the second cells of the rows that
    [PRAGMA table_info([<table>]);] returned. *)
Theorem database_view_lists_tables conn_execute ds dict_items request
    name hash w w' d h :
  (∀ m, dict_items m ≡ₚ map_to_list m) →
  DatabaseView_data conn_execute ds dict_items request name hash w =
    (w', Ok (inr (d, h))) →
  ∃ info,
    metadata ds !! name = Some info ∧
    dd_database d = name ∧ h = hash ∧
    StronglySorted str_lt (ts_name <$> dd_tables d) ∧
    (∀ t n, info_tables info !! t = Some n ↔
            ∃ s, s ∈ dd_tables d ∧ ts_name s = t ∧ ts_table_rows s = n) ∧
    ∀ s, s ∈ dd_tables d →
      ∃ conn cursor,
        conn_execute conn ("PRAGMA table_info([" +:+ ts_name s +:+ "]);") ∅ =
          Ok cursor ∧
        result_mapM (λ r, row_at r 1) (cursor_rows cursor) = Ok (ts_columns s).
Proof.
  intros Hperm H. unfold DatabaseView_data in H.
  apply M_bind_Ok in H as (sql & w0 & _ & H).
  destruct (decide (default "" sql = "")) as [_|_].
  2:{ apply M_bind_Ok in H as (r & w1 & _ & H). by apply M_ret_Ok in H as [? _]. }
  apply M_bind_Ok in H as (info & w1 & [Hinfo _]%lift_Ok & H).
  apply M_bind_Ok in H as (tables & w2 & Ht%M_mapM_Ok & H).
  apply M_bind_Ok in H as (views & w3 & _ & H).
  apply M_bind_Ok in H as (view_names & w4 & _ & H).
  apply M_ret_Ok in H as [[= -> ->] _].
  unfold dict_get in Hinfo.
  destruct (metadata ds !! name) as [info'|] eqn:Hm; simplify_eq.
  exists info. split; [done|]. cbn [dd_database dd_tables].
  do 2 (split; [done|]).
  assert (Forall2 (λ item t, ts_name t = item.1 ∧ ts_table_rows t = item.2 ∧
            ∃ conn cursor,
              conn_execute conn
                ("PRAGMA table_info([" +:+ item.1 +:+ "]);") ∅ = Ok cursor ∧
              result_mapM (λ r, row_at r 1) (cursor_rows cursor) =
                Ok (ts_columns t))
            (dict_items (info_tables info)) tables) as Hall.
  { eapply Forall2_impl; [exact Ht|].
    intros item t (wa & wb & Hs). by eapply table_summary_Ok. }
  assert (ts_name <$> tables = (dict_items (info_tables info)).*1) as Hnames.
  { clear Ht. induction Hall as [|item t items ts (Hn & _) _ IH]; [done|].
    by rewrite !fmap_cons, Hn, IH. }
  split; [|split].
  - apply sorted_by_key_strict. rewrite Hnames, Hperm.
    apply NoDup_fst_map_to_list.
  - intros t n. rewrite <-elem_of_map_to_list, <-Hperm. split.
    + intros Hin. apply list_elem_of_lookup in Hin as [i Hi].
      destruct (Forall2_lookup_l _ _ _ _ _ Hall Hi) as (s & Hs & Hn & Hr & _).
      exists s. split; [|done]. rewrite py_sorted_perm.
      by eapply list_elem_of_lookup_2.
    + intros (s & Hs & <- & <-). rewrite py_sorted_perm in Hs.
      apply list_elem_of_lookup in Hs as [i Hi].
      destruct (Forall2_lookup_r _ _ _ _ _ Hall Hi) as ([t n] & Ht' & Hn & Hr & _).
      simpl in *. subst. by eapply list_elem_of_lookup_2.
  - intros s Hs. rewrite py_sorted_perm in Hs.
    apply list_elem_of_lookup in Hs as [i Hi].
    destruct (Forall2_lookup_r _ _ _ _ _ Hall Hi) as (item & _ & Hn & _ & Hc).
    by rewrite Hn.
Qed.

Lemma database_view_lists_tables_witness :
  let d := {| dd_database := "fixtures";
              dd_tables := [{| ts_name := "pets";
                               ts_columns := [SqlText "id"; SqlText "name"];
                               ts_table_rows := 3 |}];
              dd_views := [] |} in
  DatabaseView_data Fixture_empty_engine Fixture.ds map_to_list
    Fixture.pets_request "fixtures" "a1b2c3d" Fixture.world =
    (Fixture.connected None, Ok (inr (d, "a1b2c3d"))) ∧
  ∃ info,
    metadata Fixture.ds !! "fixtures" = Some info ∧
    StronglySorted str_lt (ts_name <$> dd_tables d) ∧
    ∀ t n, info_tables info !! t = Some n ↔
           ∃ s, s ∈ dd_tables d ∧ ts_name s = t ∧ ts_table_rows s = n.
Proof.
  cbv zeta.
  assert (DatabaseView_data Fixture_empty_engine Fixture.ds map_to_list
            Fixture.pets_request "fixtures" "a1b2c3d" Fixture.world =
          (Fixture.connected None,
           Ok (inr ({| dd_database := "fixtures";
                       dd_tables :=
                         [{| ts_name := "pets";
                             ts_columns := [SqlText "id"; SqlText "name"];
                             ts_table_rows := 3 |}];
                       dd_views := [] |}, "a1b2c3d")))) as H
    by (vm_compute; reflexivity).
  split; [exact H|].
  destruct (database_view_lists_tables Fixture_empty_engine Fixture.ds
              map_to_list _ _ _ _ _ _ _ (λ m, reflexivity _) H)
    as (info & Hi & _ & _ & Hs & Ht & _).
  exists info. split; [exact Hi|]. split; [exact Hs|exact Ht].
Defined.

(** ** The row view *)

Lemma M_bind_step {A B} (m : M A) (f : A → M B) w w1 a :
  m w = (w1, Ok a) → (m ≫= f) w = f a w1.
Proof. intros H. unfold mbind, M_bind. by rewrite H. Qed.

Lemma M_bind_raise {A B} (m : M A) (f : A → M B) w w1 e :
  m w = (w1, Raise e) → (m ≫= f) w = (w1, Raise e).
Proof. intros H. unfold mbind, M_bind. by rewrite H. Qed.

Lemma row_sql_eq select table wheres :
  Py.format ("select {} from " +:+ Py.dquote +:+ "{}" +:+ Py.dquote +:+
             " where {}") [select; table; wheres] =
  "select " +:+ select +:+ " from " +:+ Py.dquote +:+ table +:+ Py.dquote +:+
  " where " +:+ wheres.
Proof.
  transitivity
    ("select " +:+ select +:+ " from " +:+ Py.dquote +:+ table +:+
     Py.dquote +:+ " where " +:+ wheres +:+ ""); [reflexivity|].
  by rewrite app_empty_r.
Qed.

Lemma row_wheres_lookup pks i :
  row_wheres pks !! i =
    (λ pk, Py.dquote +:+ pk +:+ Py.dquote +:+ "=:p" +:+ pretty i) <$> pks !! i.
Proof.
  unfold row_wheres. rewrite list_lookup_imap.
  destruct (pks !! i) as [pk|]; [|done]. cbn. f_equal.
  transitivity (Py.dquote +:+ pk +:+ Py.dquote +:+ "=:p" +:+ pretty i +:+ "");
    [reflexivity|].
  by rewrite app_empty_r.
Qed.

Lemma row_params_go_cons (n : nat) (acc : gmap string pyval) v vs :
  foldl (λ params iv, <[Py.format "p{}" [pretty iv.1] := PyStr iv.2]> params)
        acc (imap (λ i, pair (n + i)%nat) (v :: vs)) =
  foldl (λ params iv, <[Py.format "p{}" [pretty iv.1] := PyStr iv.2]> params)
        (<["p" +:+ pretty n := PyStr v]> acc)
        (imap (λ i, pair (S n + i)%nat) vs).
Proof.
  rewrite imap_cons. cbn [foldl fst snd]. rewrite format_param, Nat.add_0_r.
  f_equal. apply imap_ext. intros i x _. simpl. f_equal. lia.
Qed.

Lemma row_params_go_other (n : nat) (acc : gmap string pyval) vs name :
  (∀ j, (j < length vs)%nat → name ≠ "p" +:+ pretty (n + j)%nat) →
  foldl (λ params iv, <[Py.format "p{}" [pretty iv.1] := PyStr iv.2]> params)
        acc (imap (λ i, pair (n + i)%nat) vs) !! name = acc !! name.
Proof.
  revert n acc. induction vs as [|v vs IH]; intros n acc H; [done|].
  rewrite row_params_go_cons, IH.
  - apply lookup_insert_ne. intros E. apply (H 0%nat); [simpl; lia|].
    by rewrite Nat.add_0_r.
  - intros j Hj. replace (S n + j)%nat with (n + S j)%nat by lia.
    apply H. simpl. lia.
Qed.

Lemma row_params_go_lookup (n : nat) (acc : gmap string pyval) vs j s :
  vs !! j = Some s →
  foldl (λ params iv, <[Py.format "p{}" [pretty iv.1] := PyStr iv.2]> params)
        acc (imap (λ i, pair (n + i)%nat) vs) !! ("p" +:+ pretty (n + j)%nat) =
    Some (PyStr s).
Proof.
  revert n j acc. induction vs as [|v vs IH]; intros n j acc H; [done|].
  rewrite row_params_go_cons. destruct j as [|j]; simpl in H; simplify_eq.
  - rewrite row_params_go_other.
    + rewrite Nat.add_0_r. apply lookup_insert_eq.
    + intros j _ E%param_name_inj. lia.
  - replace (n + S j)%nat with (S n + j)%nat by lia. by apply IH.
Qed.

Lemma row_params_go_size (n : nat) (acc : gmap string pyval) vs :
  (∀ j, acc !! ("p" +:+ pretty (n + j)%nat) = None) →
  size (foldl (λ params iv,
                 <[Py.format "p{}" [pretty iv.1] := PyStr iv.2]> params)
              acc (imap (λ i, pair (n + i)%nat) vs)) =
    (size acc + length vs)%nat.
Proof.
  revert n acc. induction vs as [|v vs IH]; intros n acc H.
  - simpl. lia.
  - rewrite row_params_go_cons, IH.
    + rewrite map_size_insert_None; [simpl; lia|].
      specialize (H 0%nat). by rewrite Nat.add_0_r in H.
    + intros j. rewrite lookup_insert_ne.
      * replace (S n + j)%nat with (n + S j)%nat by lia. apply H.
      * intros E%param_name_inj. lia.
Qed.

Lemma row_params_lookup vs i :
  row_params vs !! ("p" +:+ pretty i) = PyStr <$> vs !! i.
Proof.
  destruct (vs !! i) as [s|] eqn:E.
  - apply (row_params_go_lookup 0 ∅ vs i s E).
  - refine (eq_trans (row_params_go_other 0 ∅ vs _ _) _); [|done].
    intros j Hj E'%param_name_inj. apply lookup_ge_None in E. simpl in E'. lia.
Qed.

Lemma row_params_size vs : size (row_params vs) = length vs.
Proof.
  refine (eq_trans (row_params_go_size 0 ∅ vs _) _).
  - intros. apply lookup_empty.
  - by rewrite map_size_empty.
Qed.

(** X21. What [RowView.data] returns has at least one row and at least one
    key column ([rowid] when the table has no primary key).  The statement
    that gave the rows has one equality per key column, and one parameter is
    bound per component of the path: the two numbers are not compared. *)
Theorem row_view_data_invariants conn_execute ds repr_list request
    name hash table pk_path w w' d h :
  RowView_data conn_execute ds repr_list request name hash table pk_path w =
    (w', Ok (d, h)) →
  rd_rows d ≠ [] ∧
  rd_primary_keys d ≠ [] ∧
  rd_primary_key_values d = compound_pks_from_path pk_path ∧
  rd_table d = Urllib.unquote_plus table ∧
  h = hash ∧
  ∃ conn cursor select,
    conn_execute conn
      ("select " +:+ select +:+ " from " +:+ Py.dquote +:+ rd_table d +:+
       Py.dquote +:+ " where " +:+
       Py.join " AND " (row_wheres (rd_primary_keys d)))
      (row_params (rd_primary_key_values d)) = Ok cursor ∧
    (select = "*" ∨ select = "rowid, *" ∧ rd_primary_keys d = ["rowid"]) ∧
    rd_rows d = cursor_rows cursor ∧
    rd_columns d = description cursor.
Proof.
  intros H. unfold RowView_data in H. cbv zeta in H.
  apply M_bind_Ok in H as (pks & w1 & _ & H).
  apply M_bind_Ok in H as (cursor & w2 & Hx & H).
  apply execute_Ok in Hx as [conn Hconn]. rewrite row_sql_eq in Hconn.
  destruct (decide (cursor_rows cursor = [])) as [|Hrows]; [done|].
  apply M_ret_Ok in H as [[= -> ->] _].
  cbn [rd_rows rd_primary_keys rd_primary_key_values rd_table rd_columns].
  split; [done|]. split; [by destruct (bool_decide (pks = [])) eqn:E;
    [|apply bool_decide_eq_false in E]|].
  do 3 (split; [done|]).
  eexists conn, cursor, _. split; [exact Hconn|].
  split; [|done]. destruct (bool_decide (pks = [])); auto.
Qed.

Lemma row_view_data_invariants_witness :
  let d := {| rd_database := "fixtures";
              rd_table := "pets";
              rd_rows := cursor_rows Fixture.pets;
              rd_columns := ["id"; "name"];
              rd_primary_keys := ["id"];
              rd_primary_key_values := ["2"; "x"] |} in
  RowView_data Fixture.conn_execute Fixture.ds Fixture_repr_list
    Fixture.pets_request "fixtures" "a1b2c3d" "pets" "2,x" Fixture.world =
    (Fixture.connected None, Ok (d, "a1b2c3d")) ∧
  rd_rows d ≠ [] ∧
  rd_primary_keys d ≠ [] ∧
  length (row_wheres (rd_primary_keys d)) = 1%nat ∧
  size (row_params (rd_primary_key_values d)) = 2%nat.
Proof.
  cbv zeta.
  assert (RowView_data Fixture.conn_execute Fixture.ds Fixture_repr_list
            Fixture.pets_request "fixtures" "a1b2c3d" "pets" "2,x"
            Fixture.world =
          (Fixture.connected None,
           Ok ({| rd_database := "fixtures";
                  rd_table := "pets";
                  rd_rows := cursor_rows Fixture.pets;
                  rd_columns := ["id"; "name"];
                  rd_primary_keys := ["id"];
                  rd_primary_key_values := ["2"; "x"] |}, "a1b2c3d"))) as H
    by (vm_compute; reflexivity).
  split; [exact H|].
  destruct (row_view_data_invariants _ _ _ _ _ _ _ _ _ _ _ _ H)
    as (Hrows & Hkeys & _).
  split; [exact Hrows|]. split; [exact Hkeys|].
  split; [reflexivity|vm_compute; reflexivity].
Defined.

(** X22. When the statement of the row view finds no row, [RowView.data]
    raises [NotFound] with the decoded components in its message, and
    [view_get] lets that exception through: the answer is not the 400 error
    page of a failed query. *)
Theorem row_view_not_found conn_execute ds repr_list request name hash table
    pk_path as_json w w1 w2 pks cursor :
  pks_for_table conn_execute ds name (Urllib.unquote_plus table) w =
    (w1, Ok pks) →
  execute conn_execute ds name
    ("select " +:+ (if bool_decide (pks = []) then "rowid, *" else "*") +:+
     " from " +:+ Py.dquote +:+ Urllib.unquote_plus table +:+ Py.dquote +:+
     " where " +:+
     Py.join " AND "
       (row_wheres (if bool_decide (pks = []) then ["rowid"] else pks)))
    (Some (row_params (compound_pks_from_path pk_path))) w1 =
    (w2, Ok cursor) →
  fetchall cursor = [] →
  let e := NotFound ("Record not found: " +:+
                     repr_list (compound_pks_from_path pk_path)) in
  RowView_data conn_execute ds repr_list request name hash table pk_path w =
    (w2, Raise e) ∧
  view_get ds "row.html"
    (RowView_data conn_execute ds repr_list request name hash table pk_path)
    request name hash as_json w = (w2, Raise e).
Proof.
  intros Hpks Hx Hrows e.
  assert (RowView_data conn_execute ds repr_list request name hash table
            pk_path w = (w2, Raise e)) as Hd.
  { unfold RowView_data. cbv zeta.
    rewrite (M_bind_step _ _ _ _ _ Hpks), row_sql_eq.
    rewrite (M_bind_step _ _ _ _ _ Hx).
    unfold cursor_rows. rewrite Hrows. cbn [fmap list_fmap].
    rewrite decide_True by done. unfold lift, e. do 3 f_equal.
    cbn [Py.format]. by rewrite app_empty_r. }
  split; [exact Hd|].
  unfold view_get. cbv zeta.
  rewrite (M_bind_raise _ _ w w2 e); [done|].
  by rewrite (try_sql_errors_raise _ _ _ _ _ _ Hd).
Qed.

Lemma row_view_not_found_witness :
  let e := NotFound "Record not found: ['2']" in
  RowView_data Fixture_empty_engine Fixture.ds Fixture_repr_list
    Fixture.pets_request "fixtures" "a1b2c3d" "pets" "2" Fixture.world =
    (Fixture.connected None, Raise e) ∧
  view_get Fixture.ds "row.html"
    (RowView_data Fixture_empty_engine Fixture.ds Fixture_repr_list
       Fixture.pets_request "fixtures" "a1b2c3d" "pets" "2")
    Fixture.pets_request "fixtures" "a1b2c3d" (Some ".json") Fixture.world =
    (Fixture.connected None, Raise e).
Proof.
  cbv zeta.
  apply (row_view_not_found Fixture_empty_engine Fixture.ds Fixture_repr_list
           Fixture.pets_request "fixtures" "a1b2c3d" "pets" "2" (Some ".json")
           Fixture.world (Fixture.connected None) (Fixture.connected None)
           ["id"] {| description := ["id"; "name"]; fetchall := [] |}).
  - vm_compute. reflexivity.
  - vm_compute. reflexivity.
  - reflexivity.
Defined.

Lemma path_from_row_pks_decodes row pks use_rowid values :
  pk_values row pks use_rowid = Ok values →
  use_rowid = true ∨ pks ≠ [] →
  Forall (λ v, well_formed (py_str v)) values →
  ∃ token,
    path_from_row_pks row pks use_rowid = Ok token ∧
    compound_pks_from_path token = py_str <$> values.
Proof.
  unfold pk_values, path_from_row_pks, compound_pks_from_path.
  intros Hv Hne Hwf. destruct use_rowid.
  - simpl_result. destruct (row_get row "rowid") as [v|]; simplify_eq.
    eexists. split; [done|].
    rewrite split_no_sep by apply quote_plus_no_comma.
    rewrite Forall_singleton in Hwf. cbn. by rewrite unquote_plus_quote_plus.
  - destruct Hne as [|Hne]; [done|].
    pose proof (result_mapM_Ok_bind _ (λ v, Urllib.quote_plus (py_str v))
                  _ _ Hv) as Hb.
    cbv beta in Hb. rewrite Hb. simpl_result.
    eexists. split; [done|]. rewrite split_join.
    + rewrite <-list_fmap_compose. apply Forall_fmap_ext_1.
      eapply Forall_impl; [exact Hwf|]. intros v Hw. simpl.
      by apply unquote_plus_quote_plus.
    + apply result_mapM_length in Hv. destruct values, pks; done.
    + apply Forall_fmap, Forall_true. intros v. apply quote_plus_no_comma.
Qed.

(** X23. The link that the table page makes for a row leads to that row:
    the token of [path_from_row_pks], decoded by the row view, binds one
    parameter for each equality of its statement, and the parameter of a key
    column is the [str] of the row's value in that column (for values whose
    text is well-formed UTF-8). *)
Theorem row_link_round_trip row pks values :
  let use_rowid := bool_decide (pks = []) in
  pk_values row pks use_rowid = Ok values →
  Forall (λ v, well_formed (py_str v)) values →
  ∃ token,
    path_from_row_pks row pks use_rowid = Ok token ∧
    let params := row_params (compound_pks_from_path token) in
    let wheres := row_wheres (if use_rowid then ["rowid"] else pks) in
    length wheres = length values ∧
    size params = length values ∧
    ∀ i v, values !! i = Some v →
      ∃ pk, (if use_rowid then ["rowid"] else pks) !! i = Some pk ∧
            row_get row pk = Ok v ∧
            wheres !! i =
              Some (Py.dquote +:+ pk +:+ Py.dquote +:+ "=:p" +:+ pretty i) ∧
            params !! ("p" +:+ pretty i) = Some (PyStr (py_str v)).
Proof.
  intros use_rowid Hv Hwf.
  destruct (path_from_row_pks_decodes row pks use_rowid values Hv)
    as (token & Ht & Hdec); [|done|].
  { unfold use_rowid. destruct (decide (pks = [])) as [->|Hne]; auto. }
  exists token. split; [done|]. cbv zeta. rewrite Hdec.
  assert (Forall2 (λ pk v, row_get row pk = Ok v)
            (if use_rowid then ["rowid"] else pks) values) as Hkeys.
  { unfold pk_values in Hv. destruct use_rowid.
    - simpl_result. destruct (row_get row "rowid") as [v|] eqn:E; simplify_eq.
      by repeat constructor.
    - by apply result_mapM_Ok_inv. }
  split; [|split].
  - unfold row_wheres. rewrite length_imap. by eapply Forall2_length.
  - by rewrite row_params_size, length_fmap.
  - intros i v Hi.
    destruct (Forall2_lookup_r _ _ _ _ _ Hkeys Hi) as (pk & Hpk & Hget).
    exists pk. split; [done|]. split; [done|]. split.
    + by rewrite row_wheres_lookup, Hpk.
    + by rewrite row_params_lookup, list_lookup_fmap, Hi.
Qed.

Lemma row_link_round_trip_witness :
  let row := [("id", SqlInt 7); ("name", SqlText "a b,c")] in
  ∃ token,
    path_from_row_pks row ["id"; "name"] false = Ok token ∧
    size (row_params (compound_pks_from_path token)) = 2%nat ∧
    ∀ i v, [SqlInt 7; SqlText "a b,c"] !! i = Some v →
      ∃ pk, ["id"; "name"] !! i = Some pk ∧
            row_get row pk = Ok v ∧
            row_wheres ["id"; "name"] !! i =
              Some (Py.dquote +:+ pk +:+ Py.dquote +:+ "=:p" +:+ pretty i) ∧
            row_params (compound_pks_from_path token) !! ("p" +:+ pretty i) =
              Some (PyStr (py_str v)).
Proof.
  cbv zeta.
  destruct (row_link_round_trip
              [("id", SqlInt 7); ("name", SqlText "a b,c")] ["id"; "name"]
              [SqlInt 7; SqlText "a b,c"])
    as (token & Ht & _ & Hsize & Hall).
  - reflexivity.
  - repeat constructor.
  - exists token. split; [exact Ht|]. split; [exact Hsize|exact Hall].
Defined.

(** ** The key columns of a table *)

Lemma pragma_table_info_eq table :
  Py.format ("PRAGMA table_info(" +:+ Py.dquote +:+ "{}" +:+ Py.dquote +:+ ")")
    [table] =
  "PRAGMA table_info(" +:+ Py.dquote +:+ table +:+ Py.dquote +:+ ")".
Proof. reflexivity. Qed.

(** X24. The key columns that [pks_for_table] returns are the columns whose
    [pk] flag in [PRAGMA table_info] is true, each once, in the order of
    that flag, the position of the column in the primary key, and not in the
    order of the columns of the table. *)
Theorem pks_for_table_order conn_execute ds name table w w' pks :
  pks_for_table conn_execute ds name table w = (w', Ok pks) →
  ∃ conn cursor keyrows,
    conn_execute conn
      ("PRAGMA table_info(" +:+ Py.dquote +:+ table +:+ Py.dquote +:+ ")") ∅ =
      Ok cursor ∧
    keyrows ≡ₚ
      filter (λ row, is_key_row row = true) (cursor_rows cursor) ∧
    StronglySorted (λ r1 r2, pk_flag r1 ≤ pk_flag r2) keyrows ∧
    Forall2 (λ row pk, py_str <$> row_at row 1 = Ok pk) keyrows pks.
Proof.
  intros H. unfold pks_for_table in H.
  apply M_bind_Ok in H as (cursor & w1 & [conn Hconn]%execute_Ok & H).
  apply M_bind_Ok in H as (flagged & w2 & [Hflag _]%lift_Ok & H).
  apply lift_Ok in H as [Hnames _].
  rewrite pragma_table_info_eq in Hconn. cbn [default from_option] in Hconn.
  set (keyrows := py_sorted _ _) in Hnames.
  exists conn, cursor, keyrows. split; [exact Hconn|]. split; [|split].
  - unfold keyrows. rewrite py_sorted_perm.
    apply result_mapM_Ok_inv in Hflag. clear -Hflag.
    induction Hflag as [|row [row' b] rows flagged Hrow _ IH]; [done|].
    simpl_result. destruct (row_last row) as [v|] eqn:Hv; simplify_eq.
    assert (is_key_row row' = truthy v) as Hk
      by (unfold is_key_row; by rewrite Hv).
    rewrite !filter_cons. cbn [snd]. destruct (truthy v).
    + rewrite !decide_True by done. by rewrite fmap_cons, IH.
    + rewrite !decide_False by (by rewrite ?Hk). done.
  - eapply StronglySorted_mono; [|apply py_sorted_sorted].
    + intros r1 r2 Hle. by apply Z.leb_le.
    + intros r1 r2. rewrite !Z.leb_le. lia.
    + intros r1 r2 r3. rewrite !Z.leb_le. lia.
  - apply result_mapM_Ok_inv in Hnames.
    eapply Forall2_impl; [exact Hnames|]. intros row pk. simpl_result.
    destruct (row_at row 1); [|done]. by intros [= <-].
Qed.

Lemma pks_for_table_order_witness :
  pks_for_table Fixture_compound_engine Fixture.ds "fixtures" "pairs"
    Fixture.world = (Fixture.connected None, Ok ["b"; "a"]) ∧
  ∃ conn cursor keyrows,
    Fixture_compound_engine conn
      ("PRAGMA table_info(" +:+ Py.dquote +:+ "pairs" +:+ Py.dquote +:+ ")") ∅ =
      Ok cursor ∧
    keyrows ≡ₚ
      filter (λ row, is_key_row row = true) (cursor_rows cursor) ∧
    StronglySorted (λ r1 r2, pk_flag r1 ≤ pk_flag r2) keyrows ∧
    Forall2 (λ row pk, py_str <$> row_at row 1 = Ok pk) keyrows ["b"; "a"].
Proof.
  assert (pks_for_table Fixture_compound_engine Fixture.ds "fixtures" "pairs"
            Fixture.world = (Fixture.connected None, Ok ["b"; "a"])) as H
    by (vm_compute; reflexivity).
  split; [exact H|].
  apply (pks_for_table_order _ _ _ _ _ _ _ H).
Defined.

(** ** A table that is not there *)

(** X25. A request for a table that the database does not have (no view
    and no table definition of that name) fails with [IndexError] when
    [TableView.data] takes the first row of the empty definition result; it
    is not a [NotFound], and [view_get] does not turn it into the 400 error
    payload. *)
Theorem table_view_missing_table conn_execute ds request name hash table
    as_json w w1 w2 w3 pks count definition :
  let table' := Urllib.unquote_plus table in
  pks_for_table conn_execute ds name table' w = (w1, Ok pks) →
  execute conn_execute ds name
    "SELECT count(*) from sqlite_master WHERE type = 'view' and name=:n"
    (Some {["n" := PyStr table']}) w1 = (w2, Ok count) →
  truthy <$> first_cell count = Ok false →
  execute conn_execute ds name
    ("select sql from sqlite_master where name = :n and type=" +:+
     Py.dquote +:+ "table" +:+ Py.dquote)
    (Some {["n" := PyStr table']}) w2 = (w3, Ok definition) →
  fetchall definition = [] →
  TableView_data conn_execute ds request name hash table w =
    (w3, Raise IndexError) ∧
  view_get ds "table.html"
    (TableView_data conn_execute ds request name hash table)
    request name hash as_json w = (w3, Raise IndexError).
Proof.
  intros table' Hpks Hcount Hview Hdef Hrows.
  assert (TableView_data conn_execute ds request name hash table w =
            (w3, Raise IndexError)) as Hd.
  { unfold TableView_data. cbv zeta. fold table'.
    rewrite (M_bind_step _ _ _ _ _ Hpks).
    rewrite (M_bind_step _ _ _ _ _ Hcount).
    rewrite Hview. unfold lift at 1.
    rewrite (M_bind_step _ _ w2 w2 false) by done.
    apply M_bind_raise. cbv iota.
    rewrite (M_bind_step _ _ _ _ _ Hdef).
    apply M_bind_raise. unfold first_cell, cursor_rows. by rewrite Hrows. }
  split; [exact Hd|].
  unfold view_get. cbv zeta.
  rewrite (M_bind_raise _ _ w w3 IndexError); [done|].
  by rewrite (try_sql_errors_raise _ _ _ _ _ _ Hd).
Qed.

Lemma table_view_missing_table_witness :
  TableView_data Fixture_missing_engine Fixture.ds Fixture.pets_request
    "fixtures" "a1b2c3d" "ghosts" Fixture.world =
    (Fixture.connected None, Raise IndexError) ∧
  view_get Fixture.ds "table.html"
    (TableView_data Fixture_missing_engine Fixture.ds Fixture.pets_request
       "fixtures" "a1b2c3d" "ghosts")
    Fixture.pets_request "fixtures" "a1b2c3d" None Fixture.world =
    (Fixture.connected None, Raise IndexError).
Proof.
  apply (table_view_missing_table Fixture_missing_engine Fixture.ds
           Fixture.pets_request "fixtures" "a1b2c3d" "ghosts" None
           Fixture.world (Fixture.connected None) (Fixture.connected None)
           (Fixture.connected None) []
           {| description := ["count(*)"]; fetchall := [[SqlInt 0]] |}
           {| description := ["sql"]; fetchall := [] |}).
  - vm_compute. reflexivity.
  - vm_compute. reflexivity.
  - reflexivity.
  - vm_compute. reflexivity.
  - reflexivity.
Defined.

(** ** The link to the next page *)

Lemma odict_set_other d k v :
  filter (λ kv, kv.1 ≠ k) (odict_set d k v) = filter (λ kv, kv.1 ≠ k) d.
Proof.
  induction d as [|[k' v'] d IH]; cbn [odict_set].
  - rewrite filter_cons, decide_False by (simpl; tauto). done.
  - destruct (decide (k' = k)) as [->|Hne].
    + rewrite !filter_cons, !decide_False by (simpl; tauto). done.
    + rewrite !filter_cons, !decide_True by done. by rewrite IH.
Qed.

Lemma odict_set_key d k v :
  NoDup d.*1 →
  filter (λ kv, kv.1 = k) (odict_set d k v) = [(k, v)].
Proof.
  induction d as [|[k' v'] d IH]; intros Hnd; cbn [odict_set].
  - by rewrite filter_cons, decide_True.
  - rewrite fmap_cons in Hnd. apply NoDup_cons in Hnd as [Hk Hnd].
    destruct (decide (k' = k)) as [->|Hne].
    + rewrite filter_cons, decide_True by done. f_equal.
      clear -Hk. induction d as [|[k1 v1] d IH]; [done|].
      rewrite fmap_cons, not_elem_of_cons in Hk. destruct Hk as [Hne Hk].
      simpl in Hne. rewrite filter_cons, decide_False by (simpl; congruence).
      by apply IH.
    + rewrite filter_cons, decide_False by done. by apply IH.
Qed.

Lemma odict_set_keys d k v :
  (odict_set d k v).*1 = if decide (k ∈ d.*1) then d.*1 else d.*1 ++ [k].
Proof.
  induction d as [|[k' v'] d IH]; cbn [odict_set].
  - rewrite decide_False by apply not_elem_of_nil. done.
  - destruct (decide (k' = k)) as [->|Hne].
    + rewrite decide_True by (rewrite fmap_cons; apply list_elem_of_here). done.
    + rewrite !fmap_cons, IH. cbn [fst].
      destruct (decide (k ∈ d.*1)).
      * rewrite decide_True by (by apply list_elem_of_further). done.
      * rewrite decide_False; [done|].
        rewrite not_elem_of_cons. split; [congruence|done].
Qed.

(** X26. The link that [path_with_added_args] makes for the next page
    carries exactly one [_after], the new cursor, also when the request had
    an [_after] of its own, which keeps its place; every other argument of
    the request is kept, in order, with its first value. *)
Theorem next_link_arguments request token current :
  raw_args request = Ok current →
  NoDup (args request).*1 →
  ∃ next,
    path_with_added_args request [("_after", token)] =
      Ok (path request +:+ "?" +:+ urlencode next) ∧
    filter (λ kv, kv.1 = "_after") next = [("_after", token)] ∧
    filter (λ kv, kv.1 ≠ "_after") next =
      filter (λ kv, kv.1 ≠ "_after") current ∧
    next.*1 = (if decide ("_after" ∈ current.*1) then current.*1
               else current.*1 ++ ["_after"]).
Proof.
  intros Hraw Hnd. exists (odict_set current "_after" token).
  split; [|split; [|split]].
  - unfold path_with_added_args. rewrite Hraw. reflexivity.
  - apply odict_set_key. by rewrite (raw_args_keys _ _ Hraw).
  - apply odict_set_other.
  - apply odict_set_keys.
Qed.

Lemma next_link_arguments_witness :
  let request := {| path := "/fixtures-a1b2c3d/pets";
                    query_string := "name__contains=a+b&_after=1&_after=9";
                    args := [("name__contains", ["a b"]);
                             ("_after", ["1"; "9"])] |} in
  let current := [("name__contains", "a b"); ("_after", "1")] in
  path_with_added_args request [("_after", "2")] =
    Ok "/fixtures-a1b2c3d/pets?name__contains=a+b&_after=2" ∧
  ∃ next,
    path_with_added_args request [("_after", "2")] =
      Ok (path request +:+ "?" +:+ urlencode next) ∧
    filter (λ kv, kv.1 = "_after") next = [("_after", "2")] ∧
    filter (λ kv, kv.1 ≠ "_after") next =
      filter (λ kv, kv.1 ≠ "_after") current ∧
    next.*1 = (if decide ("_after" ∈ current.*1) then current.*1
               else current.*1 ++ ["_after"]).
Proof.
  cbv zeta. split; [reflexivity|].
  apply (next_link_arguments
           {| path := "/fixtures-a1b2c3d/pets";
              query_string := "name__contains=a+b&_after=1&_after=9";
              args := [("name__contains", ["a b"]);
                       ("_after", ["1"; "9"])] |}
           "2" [("name__contains", "a b"); ("_after", "1")]).
  - reflexivity.
  - apply (bool_decide_eq_true_1 (NoDup _)); vm_compute; reflexivity.
Defined.
